(** * Lyrical-Complexity-Pipeline: a shallow embedding and its properties

    The development follows the three scripts of the pipeline:

    - [scripts/extract_lyrics.py]   (class [LyricsExtractor]): text metrics
      of one song and the record built for it;
    - [scripts/transform_lyrics.py] (class [LyricsTransformer]): cleaning,
      per-year statistics, categories and insights;
    - [airflow/lyrics_complexity_dag.py] ([data_quality_check]): the gate
      run after loading.

    Conventions.  Python floats are idealised as exact rationals ([Q]); a
    pandas NaN cell is [None].  Text is a [string] of characters with code
    points below 256.  A pandas DataFrame is the list of its rows, in row
    order.  A Python exception is the [inl] side of a sum. *)

From Stdlib Require Import ZArith QArith Qround Lia Lqa.
From Stdlib Require Import Bool Ascii String DecimalString List Sorted.
From Stdlib Require Import Permutation.
Import ListNotations.

Local Open Scope Z_scope.

(* ================================================================== *)
(** * Numbers *)

(** Nearest integer, ties to the even neighbour: the rule of Python's
    [round] and of numpy's [round] on an exact value. *)
Definition round_half_even (q : Q) : Z :=
  let n := Qnum q in
  let d := Zpos (Qden q) in
  let f := n / d in
  let r := n mod d in
  match 2 * r ?= d with
  | Lt => f
  | Gt => f + 1
  | Eq => if Z.even f then f else f + 1
  end.

Fixpoint pow10 (d : nat) : positive :=
  match d with
  | O => 1
  | S d' => 10 * pow10 d'
  end%positive.

(** [round(x, d)]; the result is kept in lowest terms so that equal
    values are equal terms. *)
Definition round_nd (d : nat) (q : Q) : Q :=
  Qred (Qmake (round_half_even (q * inject_Z (Zpos (pow10 d)))) (pow10 d)).

Definition Qsum (xs : list Q) : Q := fold_right Qplus 0%Q xs.

Definition Qlen (xs : list Q) : Q := inject_Z (Z.of_nat (length xs)).

(** [Series.mean()]: NaN on an empty series. *)
Definition mean (xs : list Q) : option Q :=
  match xs with
  | [] => None
  | _ => Some (Qred (Qsum xs / Qlen xs))
  end.

(* ================================================================== *)
(** * Text primitives used by [calculate_complexity_metrics] *)

Definition code (c : ascii) : N := N_of_ascii c.

(** The characters of a text. *)
Abbreviation chars := list_ascii_of_string (only parsing).

(** [str.isspace] on one character below U+0100: TAB..CR, FS..US, space,
    NEL and NBSP.  Both [str.split()] and [str.strip()] use this class. *)
Definition is_space (c : ascii) : bool :=
  let n := code c in
  ((9 <=? n) && (n <=? 13) || (28 <=? n) && (n <=? 32)
   || (n =? 133) || (n =? 160))%N.

Definition flush (acc : list ascii) : list string :=
  match acc with
  | [] => []
  | _ => [string_of_list_ascii (rev acc)]
  end.

(** [s.split()]: maximal runs of non-space characters. *)
Fixpoint split_ws_aux (acc : list ascii) (s : string) : list string :=
  match s with
  | EmptyString => flush acc
  | String c s' =>
      if is_space c then flush acc ++ split_ws_aux [] s'
      else split_ws_aux (c :: acc) s'
  end.

Definition split_ws (s : string) : list string := split_ws_aux [] s.

(** [s.split(sep)] for a one-character separator: never empty. *)
Fixpoint split_on_aux (sep : ascii) (acc : list ascii) (s : string)
  : list string :=
  match s with
  | EmptyString => [string_of_list_ascii (rev acc)]
  | String c s' =>
      if Ascii.eqb c sep
      then string_of_list_ascii (rev acc) :: split_on_aux sep [] s'
      else split_on_aux sep (c :: acc) s'
  end.

Definition split_on (sep : ascii) (s : string) : list string :=
  split_on_aux sep [] s.

Fixpoint lstrip_chars (l : list ascii) : list ascii :=
  match l with
  | c :: l' => if is_space c then lstrip_chars l' else l
  | [] => []
  end.

(** [s.strip()]. *)
Definition strip (s : string) : string :=
  string_of_list_ascii
    (rev (lstrip_chars (rev (lstrip_chars (list_ascii_of_string s))))).

Definition nonempty (s : string) : bool :=
  match s with EmptyString => false | _ => true end.

(** [c.lower()] below U+0100: A-Z and the Latin-1 capitals except the
    multiplication sign move up by 32. *)
Definition lower_char (c : ascii) : ascii :=
  let n := code c in
  if ((65 <=? n) && (n <=? 90)
      || (192 <=? n) && (n <=? 222) && negb (n =? 215))%N
  then ascii_of_N (n + 32) else c.

Fixpoint lower (s : string) : string :=
  match s with
  | EmptyString => EmptyString
  | String c s' => String (lower_char c) (lower s')
  end.

Definition is_vowel (c : ascii) : bool :=
  existsb (Ascii.eqb c) (list_ascii_of_string "aeiou").

(** [sum(1 for char in s if char in 'aeiou')]. *)
Fixpoint count_vowels (s : string) : nat :=
  match s with
  | EmptyString => O
  | String c s' => ((if is_vowel c then 1 else 0) + count_vowels s')%nat
  end.

(** [len(set(words))]. *)
Definition distinct (ws : list string) : list string :=
  nodup string_dec ws.

Definition newline : ascii := ascii_of_N 10.

Definition Qnat (n : nat) : Q := inject_Z (Z.of_nat n).

(* ================================================================== *)
(** * [extract_lyrics.py]: [LyricsExtractor] *)

Module Metrics.
(** The dictionary returned by [calculate_complexity_metrics]. *)
Record t := mk {
  unique_words : nat;
  total_words : nat;
  avg_sentence_length : Q;
  flesch_kincaid_score : Q;
  lexical_diversity : Q
}.
End Metrics.

Definition zero_metrics : Metrics.t := Metrics.mk 0 0 0 0 0.

Definition metrics_of_text (lyrics : string) : Metrics.t :=
  let words := split_ws lyrics in
  let total_words := length words in
  let unique_words := length (distinct words) in
  let sentences :=
    map strip (filter (fun s => nonempty (strip s)) (split_on newline lyrics)) in
  let avg_sentence_length :=
    match sentences with
    | [] => 0
    | _ => Qnat total_words / Qnat (length sentences)
    end%Q in
  let lexical_diversity :=
    (if (0 <? total_words)%nat then Qnat unique_words / Qnat total_words
     else 0)%Q in
  let syllables := count_vowels (lower lyrics) in
  let flesch_kincaid :=
    (if (0 <? total_words)%nat
     then (206835 # 1000) - (1015 # 1000) * avg_sentence_length
          - (846 # 10) * (Qnat syllables / Qnat total_words)
     else 0)%Q in
  Metrics.mk unique_words total_words
             (round_nd 2 avg_sentence_length)
             (round_nd 2 flesch_kincaid)
             (round_nd 3 lexical_diversity).

(** The guard [if not lyrics] holds of [None] and of the empty string. *)
Definition calculate_complexity_metrics (lyrics : option string) : Metrics.t :=
  match lyrics with
  | None | Some EmptyString => zero_metrics
  | Some s => metrics_of_text s
  end.

(** One row of the table written by [process_year] and read back by the
    transformer.  [lyrics_found] is [None] for a missing cell. *)
Record SongRecord := mkSong {
  year : Z;
  rank : Z;
  title : string;
  artist : string;
  lyrics_found : option bool;
  unique_words : Q;
  total_words : Q;
  avg_sentence_length : Q;
  flesch_kincaid_score : Q;
  lexical_diversity : Q
}.

(** One entry of the chart returned by [get_billboard_hot_100]. *)
Record ChartEntry := mkEntry {
  entry_rank : Z;
  entry_title : string;
  entry_artist : string
}.

(** [lyrics is not None]. *)
Definition is_not_None {A} (o : option A) : bool :=
  match o with Some _ => true | None => false end.

(** The body of the loop of [process_year]: the row for one song, given
    what [search_song_lyrics] answered; the counts enter the table as
    numbers like the other metrics. *)
Definition song_data (y : Z) (song : ChartEntry) (lyrics : option string)
  : SongRecord :=
  let metrics := calculate_complexity_metrics lyrics in
  mkSong y (entry_rank song) (entry_title song) (entry_artist song)
         (Some (is_not_None lyrics))
         (Qnat (Metrics.unique_words metrics))
         (Qnat (Metrics.total_words metrics))
         (Metrics.avg_sentence_length metrics)
         (Metrics.flesch_kincaid_score metrics)
         (Metrics.lexical_diversity metrics).

Section ProcessYear.
(** The Genius search is outside the program: any function from title
    and artist to lyrics-or-nothing. *)
Variable search_song_lyrics : string -> string -> option string.

Definition process_year (y : Z) (hot_100 : list ChartEntry)
  : list SongRecord :=
  map (fun song =>
         song_data y song
           (search_song_lyrics (entry_title song) (entry_artist song)))
      hot_100.
End ProcessYear.

(* ================================================================== *)
(** * [transform_lyrics.py]: [LyricsTransformer] *)

(** ** [clean_data] *)

(** [Series.between(lo, hi)], both ends included. *)
Definition between (lo hi x : Q) : bool := Qle_bool lo x && Qle_bool x hi.

(** [dropna(subset=['lyrics_found'])] followed by the mask
    [lyrics_found == True]. *)
Definition has_lyrics (r : SongRecord) : bool :=
  match lyrics_found r with
  | Some b => b
  | None => false
  end.

Definition in_score_range (r : SongRecord) : bool :=
  between (-50) 100 (flesch_kincaid_score r).

(** The year column goes through [pd.to_datetime(_, format='%Y')] and is
    read back with [.dt.year]: the same integer.  The numeric columns
    already hold numbers, so [pd.to_numeric] leaves them as they are. *)
Definition clean_data (data : list SongRecord) : list SongRecord :=
  filter in_score_range (filter has_lyrics data).

(** ** [pd.cut] *)

(** A bin edge: a number or one of [-np.inf], [np.inf]. *)
Inductive edge := NegInf | Fin (q : Q) | PosInf.

Definition edge_lt (e : edge) (x : Q) : bool :=
  match e with
  | NegInf => true
  | Fin q => negb (Qle_bool x q)
  | PosInf => false
  end.

Definition edge_ge (e : edge) (x : Q) : bool :=
  match e with
  | NegInf => false
  | Fin q => Qle_bool x q
  | PosInf => true
  end.

(** [pd.cut(x, bins, labels)] with the default [right=True]: the label of
    the bin [(lo, hi]] holding [x], NaN when no bin does. *)
Fixpoint cut_from {L} (lo : edge) (bins : list edge) (labels : list L)
  (x : Q) : option L :=
  match bins, labels with
  | hi :: bins', l :: labels' =>
      if edge_lt lo x && edge_ge hi x then Some l
      else cut_from hi bins' labels' x
  | _, _ => None
  end.

Definition cut {L} (bins : list edge) (labels : list L) (x : Q) : option L :=
  match bins with
  | lo :: bins' => cut_from lo bins' labels x
  | [] => None
  end.

Definition complexity_bins : list edge := [NegInf; Fin 30; Fin 60; Fin 80; PosInf].
Definition complexity_labels : list string :=
  ["Very Complex"; "Complex"; "Moderate"; "Simple"]%string.

Definition rank_bins : list edge := [Fin 0; Fin 10; Fin 25; Fin 50; Fin 100].
Definition rank_labels : list string :=
  ["Top 10"; "Top 25"; "Top 50"; "Top 100"]%string.

Definition complexity_category_of (score : Q) : option string :=
  cut complexity_bins complexity_labels score.

Definition rank_category_of (rk : Z) : option string :=
  cut rank_bins rank_labels (inject_Z rk).

(** A row after [calculate_additional_metrics] added the two category
    columns; [None] is pandas' NaN category. *)
Record Categorized := mkCat {
  song : SongRecord;
  complexity_category : option string;
  rank_category : option string
}.

Definition categorize (r : SongRecord) : Categorized :=
  mkCat r (complexity_category_of (flesch_kincaid_score r))
          (rank_category_of (rank r)).

(** ** Column statistics of [groupby(...).agg(...)] *)

Local Open Scope Q_scope.

Definition Qsq (x : Q) : Q := x * x.

(** Sum of the squared deviations from the mean. *)
Definition sum_sq_dev (xs : list Q) : Q :=
  let avg := Qsum xs / Qlen xs in
  Qsum (map (fun x => Qsq (x - avg)) xs).

(** [Series.var(ddof)]: the squared deviations divided by [count - ddof],
    NaN unless [count > ddof]. *)
Definition var_ddof (ddof : nat) (xs : list Q) : option Q :=
  if (length xs <=? ddof)%nat then None
  else Some (sum_sq_dev xs / (Qlen xs - Qnat ddof)).

(** Nearest integer to the square root of [w / 4], for [w >= 0], ties to
    the even neighbour: with [s] the integer square root of [w], the
    root of [w / 4] lies in [[s/2, (s+1)/2)]. *)
Definition nearest_sqrt (w : Q) : Z :=
  let s := Z.sqrt (Qfloor w) in
  (if Z.odd s && Qeq_bool (inject_Z (s * s)) w
   then (let j := (s - 1) / 2 in if Z.even j then j else j + 1)
   else (s + 1) / 2)%Z.

(** The square root of [v >= 0] rounded to [d] decimals, computed
    exactly on the rational [v]. *)
Definition sqrt_round_nd (d : nat) (v : Q) : Q :=
  let p := Zpos (pow10 d) in
  Qred (Qmake (nearest_sqrt (v * inject_Z (4 * p * p))) (pow10 d)).

(** The ['std'] aggregate is [Series.std()], whose default is [ddof=1];
    the whole table is then rounded with [.round(3)]. *)
Definition std_round (d : nat) (xs : list Q) : option Q :=
  option_map (sqrt_round_nd d) (var_ddof 1 xs).

Fixpoint insert_sorted (x : Q) (l : list Q) : list Q :=
  match l with
  | [] => [x]
  | y :: l' => if Qle_bool x y then x :: l else y :: insert_sorted x l'
  end.

Definition sort_values (xs : list Q) : list Q :=
  fold_right insert_sorted [] xs.

(** [Series.median()]. *)
Definition median (xs : list Q) : option Q :=
  match xs with
  | [] => None
  | _ =>
      let s := sort_values xs in
      let n := length xs in
      let hi := nth (n / 2)%nat s 0 in
      if Nat.even n
      then Some (Qred ((nth (n / 2 - 1)%nat s 0 + hi) / 2))
      else Some hi
  end.

(** The three aggregates of one column, each rounded to [d] decimals. *)
Record Agg := mkAgg {
  agg_mean : option Q;
  agg_std : option Q;
  agg_median : option Q
}.

Definition agg_round (d : nat) (xs : list Q) : Agg :=
  mkAgg (option_map (round_nd d) (mean xs))
        (std_round d xs)
        (option_map (round_nd d) (median xs)).

(** ** [groupby] with the default [sort=True] *)

Section GroupBy.
Context {A : Type}.
Variable key : A -> Z.

Fixpoint add_to_group (a : A) (gs : list (Z * list A))
  : list (Z * list A) :=
  match gs with
  | [] => [(key a, [a])]
  | (k, g) :: gs' =>
      match (key a ?= k)%Z with
      | Lt => (key a, [a]) :: gs
      | Eq => (k, g ++ [a]) :: gs'
      | Gt => (k, g) :: add_to_group a gs'
      end
  end.

(** Groups in ascending key order, rows of a group in table order. *)
Definition groupby (rows : list A) : list (Z * list A) :=
  fold_left (fun gs a => add_to_group a gs) rows [].
End GroupBy.

(** ** [calculate_additional_metrics] *)

Module YearlyStat.
(** A row of [yearly_stats]; column [c_mean] of the source is
    [agg_mean] of field [c], and likewise for [c_std], [c_median]. *)
Record t := mk {
  year : Z;
  flesch_kincaid_score : Agg;
  lexical_diversity : Agg;
  unique_words : Agg;
  total_words : Agg;
  complexity_trend : option Q
}.
End YearlyStat.

Module DecadeStat.
Record t := mk {
  decade : Z;
  flesch_kincaid_score : option Q;
  lexical_diversity : option Q;
  unique_words : option Q
}.
End DecadeStat.

Definition Qsub_opt (a b : option Q) : option Q :=
  match a, b with
  | Some x, Some y => Some (Qred (x - y))
  | _, _ => None
  end.

(** [Series.diff()]: NaN first, then each value minus the one before. *)
Fixpoint diff_from (prev : option Q) (xs : list (option Q))
  : list (option Q) :=
  match xs with
  | [] => []
  | x :: xs' => Qsub_opt x prev :: diff_from x xs'
  end.

Definition diff (xs : list (option Q)) : list (option Q) := diff_from None xs.

Definition col (f : SongRecord -> Q) (g : list SongRecord) : list Q := map f g.

(** The aggregated table before [complexity_trend] is added. *)
Definition yearly_agg (data : list SongRecord)
  : list (Z * (Agg * Agg * Agg * Agg)) :=
  map (fun kg : Z * list SongRecord =>
         let g := snd kg in
         (fst kg,
          (agg_round 3 (col flesch_kincaid_score g),
           agg_round 3 (col lexical_diversity g),
           agg_round 3 (col unique_words g),
           agg_round 3 (col total_words g))))
      (groupby year data).

Definition yearly_stats (data : list SongRecord) : list YearlyStat.t :=
  let rows := yearly_agg data in
  let trend := diff (map (fun r => agg_mean (fst (fst (fst (snd r))))) rows) in
  map (fun rt : (Z * (Agg * Agg * Agg * Agg)) * option Q =>
         let '(y, (fk, ld, uw, tw), t) := rt in
         YearlyStat.mk y fk ld uw tw t)
      (combine rows trend).

(** [year // 10 * 10]. *)
Definition decade_of (r : SongRecord) : Z := (year r / 10 * 10)%Z.

Definition decade_stats (data : list SongRecord) : list DecadeStat.t :=
  map (fun kg : Z * list SongRecord =>
         let g := snd kg in
         DecadeStat.mk (fst kg)
           (option_map (round_nd 3) (mean (col flesch_kincaid_score g)))
           (option_map (round_nd 3) (mean (col lexical_diversity g)))
           (option_map (round_nd 3) (mean (col unique_words g))))
      (groupby decade_of data).

(** What [calculate_additional_metrics] leaves behind: the categorised
    table (the new [self.data], also its return value) and the two
    statistics tables handed to [save_transformed_data]. *)
Record Transformed := mkTransformed {
  transformed_data : list Categorized;
  transformed_yearly : list YearlyStat.t;
  transformed_decade : list DecadeStat.t
}.

Definition calculate_additional_metrics (data : list SongRecord)
  : Transformed :=
  mkTransformed (map categorize data) (yearly_stats data) (decade_stats data).

(** ** [generate_insights] *)

Inductive exn :=
| ValueError (msg : string)
| KeyError (label : nat)
| Exception (msg : string) (args : list nat).

Definition result (A : Type) : Type := exn + A.

Definition ret {A} (a : A) : result A := inr a.

Definition bind {A B} (m : result A) (f : A -> result B) : result B :=
  match m with
  | inl e => inl e
  | inr a => f a
  end.

Notation "x <- m ;; k" := (bind m (fun x => k))
  (at level 61, m at next level, right associativity).

(** Position of the first occurrence of the best value seen so far. *)
Fixpoint arg_best (better : Q -> Q -> bool) (best : Q) (besti i : nat)
  (xs : list Q) : nat :=
  match xs with
  | [] => besti
  | x :: xs' =>
      if better x best then arg_best better x i (S i) xs'
      else arg_best better best besti (S i) xs'
  end.

Definition Qlt_bool (x y : Q) : bool := negb (Qle_bool y x).

(** [Series.idxmin()] and [Series.idxmax()]: the first row holding the
    extreme value; [ValueError] on an empty series. *)
Definition idxmin (xs : list Q) : result nat :=
  match xs with
  | [] => inl (ValueError "attempt to get argmin of an empty sequence")
  | x :: xs' => ret (arg_best Qlt_bool x 0%nat 1%nat xs')
  end.

Definition idxmax (xs : list Q) : result nat :=
  match xs with
  | [] => inl (ValueError "attempt to get argmax of an empty sequence")
  | x :: xs' => ret (arg_best (fun a b => Qlt_bool b a) x 0%nat 1%nat xs')
  end.

(** [self.data.loc[i, 'title']]. *)
Definition loc_title (data : list Categorized) (i : nat) : result string :=
  match nth_error data i with
  | Some r => ret (title (song r))
  | None => inl (KeyError i)
  end.

(** [Series.min()], [Series.max()] on the year column: NaN when empty. *)
Definition Zmin_list (xs : list Z) : option Z :=
  match xs with
  | [] => None
  | x :: xs' => Some (fold_left Z.min xs' x)
  end.

Definition Zmax_list (xs : list Z) : option Z :=
  match xs with
  | [] => None
  | x :: xs' => Some (fold_left Z.max xs' x)
  end.

Module Insights.
Record trend_t := mkTrend {
  recent_average : Q;
  older_average : Q;
  change : Q;
  trend : string
}.

Record top_t := mkTop {
  most_complex_song : string;
  least_complex_song : string;
  highest_lexical_diversity : string;
  most_unique_words : string
}.

(** The dictionary returned by [generate_insights]; [years_covered]
    holds the two numbers the source prints around a dash, and
    [complexity_trend] is [None] when the key is not set. *)
Record t := mk {
  total_songs_analyzed : nat;
  years_covered : option Z * option Z;
  complexity_trend : option trend_t;
  top_metrics : top_t;
  rank_complexity : list (string * option Q);
  yearly_complexity : list (Z * option Q)
}.
End Insights.

Definition fk (r : Categorized) : Q := flesch_kincaid_score (song r).

Definition string_eqb_opt (o : option string) (l : string) : bool :=
  match o with
  | Some s => String.eqb s l
  | None => false
  end.

(** The [complexity_trend] entry: set only when both sides of the split
    at 2020 hold rows. *)
Definition trend_of (data : list Categorized) : option Insights.trend_t :=
  let recent_years := filter (fun r => (2020 <=? year (song r))%Z) data in
  let older_years := filter (fun r => (year (song r) <? 2020)%Z) data in
  if ((0 <? length recent_years) && (0 <? length older_years))%nat then
    match mean (map fk recent_years), mean (map fk older_years) with
    | Some recent_avg, Some older_avg =>
        let complexity_change := recent_avg - older_avg in
        Some (Insights.mkTrend
                (round_nd 2 recent_avg)
                (round_nd 2 older_avg)
                (round_nd 2 complexity_change)
                (if Qlt_bool 0 complexity_change
                 then "Simpler" else "More Complex")%string)
    | _, _ => None
    end
  else None.

(** [groupby('rank_category')] on the categorical column: one entry per
    label in label order, NaN for a label no row carries; rows without a
    category belong to no group. *)
Definition rank_complexity_of (data : list Categorized)
  : list (string * option Q) :=
  map (fun l =>
         (l, option_map (round_nd 2)
               (mean (map fk
                  (filter (fun r => string_eqb_opt (rank_category r) l) data)))))
      rank_labels.

Definition yearly_complexity_of (data : list Categorized)
  : list (Z * option Q) :=
  map (fun kg : Z * list Categorized =>
         (fst kg, option_map (round_nd 2) (mean (map fk (snd kg)))))
      (groupby (fun r => year (song r)) data).

Definition generate_insights (data : list Categorized)
  : result Insights.t :=
  let total := length data in
  let years := map (fun r => year (song r)) data in
  let covered := (Zmin_list years, Zmax_list years) in
  let trend := trend_of data in
  i1 <- idxmin (map fk data) ;;
  most_complex <- loc_title data i1 ;;
  i2 <- idxmax (map fk data) ;;
  least_complex <- loc_title data i2 ;;
  i3 <- idxmax (map (fun r => lexical_diversity (song r)) data) ;;
  highest_ld <- loc_title data i3 ;;
  i4 <- idxmax (map (fun r => unique_words (song r)) data) ;;
  most_unique <- loc_title data i4 ;;
  ret (Insights.mk total covered trend
         (Insights.mkTop most_complex least_complex highest_ld most_unique)
         (rank_complexity_of data)
         (yearly_complexity_of data)).

(** [main]: transform, then extract the insights from the new table. *)
Definition run_transformer (csv : list SongRecord) : result Insights.t :=
  generate_insights
    (transformed_data (calculate_additional_metrics (clean_data csv))).

(* ================================================================== *)
(** * [lyrics_complexity_dag.py]: [data_quality_check] *)

(** [max(files, key=mtime)]: the first file with the largest time. *)
Fixpoint latest {A} (best : Z * A) (files : list (Z * A)) : Z * A :=
  match files with
  | [] => best
  | f :: files' =>
      if (fst best <? fst f)%Z then latest f files' else latest best files'
  end.

(** [df['lyrics_found'].sum()]: the number of [True] cells. *)
Definition sum_lyrics_found (df : list Categorized) : nat :=
  length (filter (fun r => has_lyrics (song r)) df).

Module QualityChecks.
Record t := mk {
  total_records : nat;
  missing_lyrics : nat;
  avg_complexity : option Q;
  year_range : option Z * option Z;
  rank_range : option Z * option Z
}.
End QualityChecks.

Definition quality_checks (df : list Categorized) : QualityChecks.t :=
  let years := map (fun r => year (song r)) df in
  let ranks := map (fun r => rank (song r)) df in
  QualityChecks.mk (length df) (sum_lyrics_found df) (mean (map fk df))
    (Zmin_list years, Zmax_list years)
    (Zmin_list ranks, Zmax_list ranks).

(** The argument lists the [*_transformed.csv] files with their
    modification times.  The test against [total_records * 0.5] is
    written without the fraction; an exception carries the numbers its
    message interpolates. *)
Definition data_quality_check (transformed_files : list (Z * list Categorized))
  : result string :=
  match transformed_files with
  | [] => inl (Exception "No transformed data files found" [])
  | f :: files =>
      let df := snd (latest f files) in
      let qc := quality_checks df in
      if (QualityChecks.total_records qc <? 100)%nat
      then inl (Exception "Insufficient data" [QualityChecks.total_records qc])
      else if (QualityChecks.total_records qc
               <? 2 * QualityChecks.missing_lyrics qc)%nat
      then inl (Exception "Too many missing lyrics"
                  [QualityChecks.missing_lyrics qc;
                   QualityChecks.total_records qc])
      else ret "quality_check_passed"%string
  end.

(** [t] is the title of the first row of [data] that attains the greatest
    value of column [f]. *)
Definition first_max_row (f : Categorized -> Q) (data : list Categorized)
  (t : string) : Prop :=
  exists i r,
    nth_error data i = Some r /\ t = title (song r) /\
    (forall r', In r' data -> f r' <= f r) /\
    (forall j r', (j < i)%nat -> nth_error data j = Some r' -> f r' < f r).

(** ** [generate_summary_report] *)

Module Summary.
(** The [summary] dictionary written to the report file. *)
Record t := mk {
  pipeline_execution_date : string;
  total_songs_analyzed : nat;
  years_covered : option Z * option Z;
  average_complexity_score : option Q;
  complexity_trend : string;
  top_complexity_song : string;
  top_complexity_artist : string;
  least_complexity_song : string;
  least_complexity_artist : string
}.
End Summary.

(** The values of a column that are not NaN. *)
Definition dropna (xs : list (option Q)) : list Q :=
  flat_map (fun o => match o with Some x => [x] | None => [] end) xs.

(** [Series.mean()] on a column with NaN cells: they are skipped. *)
Definition mean_skipna (xs : list (option Q)) : option Q := mean (dropna xs).

(** [df.groupby('year')['flesch_kincaid_score'].mean()]; the file holds
    each year as the date of its first day, ordered like the year. *)
Definition yearly_means (df : list Categorized) : list (option Q) :=
  map (fun kg : Z * list Categorized => mean (map fk (snd kg)))
      (groupby (fun r => year (song r)) df).

(** ["Simpler" if yearly.diff().mean() > 0 else "More Complex"]; a NaN
    mean compares false. *)
Definition summary_trend (df : list Categorized) : string :=
  match mean_skipna (diff (yearly_means df)) with
  | Some m => if Qlt_bool 0 m then "Simpler" else "More Complex"
  | None => "More Complex"
  end.

(** [df.loc[i, 'artist']]. *)
Definition loc_artist (data : list Categorized) (i : nat) : result string :=
  match nth_error data i with
  | Some r => ret (artist (song r))
  | None => inl (KeyError i)
  end.

(** The summary the report is written from; [now] is the clock reading
    and the argument lists the [*_transformed.csv] files with their
    modification times. *)
Definition generate_summary_report (now : string)
  (transformed_files : list (Z * list Categorized)) : result Summary.t :=
  match transformed_files with
  | [] => inl (Exception "No transformed data files found" [])
  | f :: files =>
      let df := snd (latest f files) in
      let years := map (fun r => year (song r)) df in
      let average := option_map (round_nd 2) (mean (map fk df)) in
      let trend := summary_trend df in
      i1 <- idxmin (map fk df) ;;
      top_song <- loc_title df i1 ;;
      i2 <- idxmin (map fk df) ;;
      top_artist <- loc_artist df i2 ;;
      i3 <- idxmax (map fk df) ;;
      least_song <- loc_title df i3 ;;
      i4 <- idxmax (map fk df) ;;
      least_artist <- loc_artist df i4 ;;
      ret (Summary.mk now (length df) (Zmin_list years, Zmax_list years)
             average trend top_song top_artist least_song least_artist)
  end.

(** ** [get_billboard_hot_100] and [process_multiple_years] *)

(** [f"{i}"] for a non-negative integer. *)
Definition str_of_nat (n : nat) : string :=
  NilZero.string_of_uint (Nat.to_uint n).

(** The ten literal entries of the mock chart. *)
Definition mock_top_ten : list ChartEntry :=
  [mkEntry 1 "Blinding Lights" "The Weeknd";
   mkEntry 2 "Dance Monkey" "Tones and I";
   mkEntry 3 "The Box" "Roddy Ricch";
   mkEntry 4 "Don't Start Now" "Dua Lipa";
   mkEntry 5 "Someone You Loved" "Lewis Capaldi";
   mkEntry 6 "Circles" "Post Malone";
   mkEntry 7 "Sunflower" "Post Malone & Swae Lee";
   mkEntry 8 "Shallow" "Lady Gaga & Bradley Cooper";
   mkEntry 9 "Old Town Road" "Lil Nas X";
   mkEntry 10 "Bad Guy" "Billie Eilish"]%string.

(** The entry appended for [i] in [range(11, 101)]. *)
Definition mock_entry (i : nat) : ChartEntry :=
  mkEntry (Z.of_nat i) ("Mock Song " ++ str_of_nat i)
          ("Mock Artist " ++ str_of_nat i).

(** The mock chart: each entry comes with the year asked for. *)
Definition get_billboard_hot_100 (y : Z) : list (Z * ChartEntry) :=
  map (pair y) (mock_top_ten ++ map mock_entry (seq 11 90)).

(** [range(start_year, end_year + 1)]. *)
Definition year_range (start_year end_year : Z) : list Z :=
  map (fun i => (start_year + Z.of_nat i)%Z)
      (seq 0 (Z.to_nat (end_year - start_year + 1))).

(** [pd.concat(frames, ignore_index=True)]: an empty list of frames is a
    [ValueError]. *)
Definition pd_concat {A} (frames : list (list A)) : result (list A) :=
  match frames with
  | [] => inl (ValueError "No objects to concatenate")
  | _ => ret (concat frames)
  end.

Section ProcessMultipleYears.
Variable search_song_lyrics : string -> string -> option string.

(** [process_year] on the chart it fetches itself. *)
Definition process_chart_year (y : Z) : list SongRecord :=
  process_year search_song_lyrics y (map snd (get_billboard_hot_100 y)).

Definition process_multiple_years (start_year end_year : Z)
  : result (list SongRecord) :=
  pd_concat (map process_chart_year (year_range start_year end_year)).
End ProcessMultipleYears.

(** ** File names: [save_transformed_data] and the globs of [main] *)

(** [s.startswith(p)]. *)
Fixpoint starts_with (p s : string) : bool :=
  match p, s with
  | EmptyString, _ => true
  | String a p', String b s' => Ascii.eqb a b && starts_with p' s'
  | String _ _, EmptyString => false
  end.

(** [p in s]. *)
Fixpoint occurs (p s : string) : bool :=
  starts_with p s
  || match s with
     | EmptyString => false
     | String _ s' => occurs p s'
     end.

(** [s.replace(old, new)] for a non-empty [old]: occurrences are replaced
    from the left and do not overlap; [skip] counts the characters of a
    replaced occurrence still to pass over. *)
Fixpoint replace_aux (old new : string) (skip : nat) (s : string) : string :=
  match s with
  | EmptyString => EmptyString
  | String c s' =>
      match skip with
      | S k => replace_aux old new k s'
      | O =>
          if starts_with old s
          then (new ++ replace_aux old new (String.length old - 1) s')%string
          else String c (replace_aux old new 0 s')
      end
  end.

Definition str_replace (old new s : string) : string :=
  replace_aux old new 0 s.

(** What a file written by the transformer holds. *)
Inductive table :=
| DataTable (rows : list Categorized)
| YearlyTable (rows : list YearlyStat.t)
| DecadeTable (rows : list DecadeStat.t).

(** The three [to_csv] calls of [save_transformed_data], in order, each
    with the path it writes. *)
Definition save_transformed_data (input_file : string) (t : Transformed)
  : list (string * table) :=
  [(str_replace ".csv" "_transformed.csv" input_file,
    DataTable (transformed_data t));
   (str_replace ".csv" "_yearly_stats.csv" input_file,
    YearlyTable (transformed_yearly t));
   (str_replace ".csv" "_decade_stats.csv" input_file,
    DecadeTable (transformed_decade t))].

(** The directory after some writes: a later write to a path replaces an
    earlier one. *)
Fixpoint read_back (path : string) (writes : list (string * table))
  : option table :=
  match writes with
  | [] => None
  | (p, t) :: writes' =>
      match read_back path writes' with
      | Some t' => Some t'
      | None => if String.eqb p path then Some t else None
      end
  end.

(** [s.endswith(p)]. *)
Definition ends_with (p s : string) : bool :=
  (String.length p <=? String.length s)%nat
  && String.eqb (substring (String.length s - String.length p)
                           (String.length p) s) p.

(** A file name against a glob pattern with a single star,
    [prefix*suffix]. *)
Definition glob_match (prefix suffix name : string) : bool :=
  starts_with prefix name && ends_with suffix name
  && (String.length prefix + String.length suffix <=? String.length name)%nat.

(** The pattern [main] of the transformer looks for in [../data]. *)
Definition lyrics_file (name : string) : bool :=
  glob_match "billboard_hot_100_complexity_" ".csv" name.

(** The input [main] of the transformer picks from a listing of
    [../data] (name and modification time of each file): the latest file
    matching the pattern, as a path. *)
Definition transform_main_input (listing : list (Z * string))
  : option string :=
  match filter (fun f => lyrics_file (snd f)) listing with
  | [] => None
  | f :: files => Some ("../data/" ++ snd (latest f files))%string
  end.

(** ** [test_pipeline.py]: [test_mock_data_generation] *)

(** [max(-50, min(100, x))]. *)
Definition clamp_score (x : Q) : Q :=
  let m := if Qle_bool 100 x then 100 else x in
  if Qle_bool m (-50) then -50 else m.

(** The random draws behind one mock row, in the order the loop makes
    them: the normal score, the two integers, the two uniform reals. *)
Record Draw := mkDraw {
  draw_score : Q;
  draw_unique : Z;
  draw_total : Z;
  draw_sentence : Q;
  draw_diversity : Q
}.

Definition mock_record (y : Z) (rk : nat) (d : Draw) : SongRecord :=
  mkSong y (Z.of_nat rk)
         ("Mock Song " ++ str_of_nat rk) ("Mock Artist " ++ str_of_nat rk)
         (Some true)
         (inject_Z (draw_unique d)) (inject_Z (draw_total d))
         (round_nd 2 (draw_sentence d))
         (round_nd 2 (clamp_score (draw_score d)))
         (round_nd 3 (draw_diversity d)).

(** The frame of the test: years 2015 to 2024, ranks 1 to 100. *)
Definition mock_data (draw : Z -> nat -> Draw) : list SongRecord :=
  flat_map (fun y => map (fun rk => mock_record y rk (draw y rk)) (seq 1 100))
           (year_range 2015 2024).

(** The three assertions of the test on the frame; [inl] carries the
    message of a failed [assert]. *)
Definition mock_data_assertions (df : list SongRecord) : string + bool :=
  if negb (length df =? 10 * 100)%nat
  then inl "Incorrect number of records"%string
  else if negb (forallb (fun r => between (-50) 100 (flesch_kincaid_score r)) df)
  then inl "Invalid complexity scores"%string
  else if negb (forallb (fun r => between 0 1 (lexical_diversity r)) df)
  then inl "Invalid lexical diversity"%string
  else inr true.

Definition test_mock_data_generation (draw : Z -> nat -> Draw)
  : string + bool :=
  mock_data_assertions (mock_data draw).

(* ================================================================== *)
(** * [load_to_postgres.py]: [main] *)

(** What each method of [PostgresLoader] returns in one run; the database
    decides that, not the program. *)
Record LoaderReturns := mkReturns {
  connect_returns : bool;
  create_tables_returns : bool;
  load_lyrics_returns : bool;
  load_yearly_returns : bool;
  load_decade_returns : bool;
  analytics_returns : bool
}.

Inductive loader_call :=
| Connect
| CreateTables
| LoadLyricsComplexity (file : string)
| LoadYearlyStats (file : string)
| LoadDecadeStats (file : string)
| RunAnalyticsQueries
| LogCompleted
| Close.

(** The calls [main] makes, in order, given the three glob results. *)
Definition load_main
  (transformed_file yearly_stats_file decade_stats_file : list string)
  (r : LoaderReturns) : list loader_call :=
  match transformed_file with
  | [] => []
  | tf :: _ =>
      let finish := [RunAnalyticsQueries; LogCompleted] in
      let decade :=
        match decade_stats_file with
        | [] => finish
        | df :: _ =>
            LoadDecadeStats df :: if load_decade_returns r then finish else []
        end in
      let yearly :=
        match yearly_stats_file with
        | [] => decade
        | yf :: _ =>
            LoadYearlyStats yf :: if load_yearly_returns r then decade else []
        end in
      (Connect ::
       if connect_returns r then
         CreateTables ::
         if create_tables_returns r then
           LoadLyricsComplexity tf ::
           if load_lyrics_returns r then yearly else []
         else []
       else [])
      ++ [Close]
  end.

(* ================================================================== *)
(** * [setup.py]: [main] *)

(** What the checks and steps of one setup run return. *)
Record SetupReturns := mkSetup {
  python_version_ok : bool;
  virtual_environment_ok : bool;
  dependencies_ok : bool;
  environment_file_ok : bool;
  docker_ok : bool;
  tests_ok : bool
}.

(** The [steps] list of [main] with what each step returns;
    [create_directories] always returns [True]. *)
Definition setup_steps (r : SetupReturns) : list (string * bool) :=
  [("Creating directories", true);
   ("Setting up virtual environment", virtual_environment_ok r);
   ("Installing dependencies", dependencies_ok r);
   ("Setting up environment file", environment_file_ok r);
   ("Checking Docker", docker_ok r)]%string.

(** The loop over the steps: the names of the steps run, and whether it
    ended in [sys.exit(1)]. *)
Fixpoint run_steps (steps : list (string * bool)) : list string * bool :=
  match steps with
  | [] => ([], false)
  | (name, ok) :: steps' =>
      if ok
      then (let (ran, failed) := run_steps steps' in (name :: ran, failed))
      else ([name], true)
  end.

Record SetupOutcome := mkOutcome {
  steps_run : list string;
  tests_run : bool;
  next_steps_printed : bool;
  exit_status : option nat
}.

(** [main]; [argv] holds the command-line arguments after the script. *)
Definition setup_main (argv : list string) (r : SetupReturns) : SetupOutcome :=
  if negb (python_version_ok r) then mkOutcome [] false false (Some 1%nat)
  else
    let (ran, failed) := run_steps (setup_steps r) in
    if failed then mkOutcome ran false false (Some 1%nat)
    else
      let test :=
        match argv with
        | a :: _ => String.eqb a "--test"
        | [] => false
        end in
      mkOutcome ran test true None.

(* ================================================================== *)
(** * [lyrics_complexity_dag.py]: [cleanup_temp_files] *)

(** The globs [*.tmp], [*_temp*] and [*.log] on a file name. *)
Definition temp_patterns : list (string -> bool) :=
  [ends_with ".tmp"; occurs "_temp"; ends_with ".log"].

Section Cleanup.
(** Whether [unlink] succeeds on a file is up to the file system. *)
Variable unlink_ok : string -> bool.

(** One pattern: every file of the directory matching it is unlinked and,
    when that works, recorded. *)
Definition cleanup_pass (pattern : string -> bool)
  (st : list string * list string) : list string * list string :=
  let (dir, cleaned) := st in
  (filter (fun n => negb (pattern n && unlink_ok n)) dir,
   cleaned ++ filter (fun n => pattern n && unlink_ok n) dir).

(** The directory left behind and the names recorded in
    [cleaned_files]; the task returns their number. *)
Definition cleanup_temp_files (dir : list string)
  : list string * list string :=
  fold_left (fun st p => cleanup_pass p st) temp_patterns (dir, []).
End Cleanup.

(* ================================================================== *)
(** * Specification-side notions *)

(** Half a unit of the [d]-th decimal. *)
Definition half_unit (d : nat) : Q := 1 # (2 * pow10 d).

(** [r] is the square root of [v] rounded to [d] decimals: a non-negative
    multiple of [10^-d] no further than half a unit from the root. *)
Definition rounded_sqrt (d : nat) (v r : Q) : Prop :=
  0 <= r /\
  (exists k : Z, r == k # pow10 d) /\
  v <= Qsq (r + half_unit d) /\
  (r == 0 \/ Qsq (r - half_unit d) <= v).

(** The variance the specification names: squared deviations divided by
    the number of values. *)
Definition population_variance (xs : list Q) : Q :=
  sum_sq_dev xs / Qlen xs.

(** The variance with Bessel's correction: divided by one less. *)
Definition sample_variance (xs : list Q) : Q :=
  sum_sq_dev xs / (Qlen xs - 1).

(** The four columns aggregated per year: the column of the yearly table
    and the column of the song table it summarises. *)
Definition metric_columns : list ((YearlyStat.t -> Agg) * (SongRecord -> Q)) :=
  [(YearlyStat.flesch_kincaid_score, flesch_kincaid_score);
   (YearlyStat.lexical_diversity, lexical_diversity);
   (YearlyStat.unique_words, unique_words);
   (YearlyStat.total_words, total_words)].

(** The column [flesch_kincaid_score_mean] of the yearly table. *)
Definition fk_mean (s : YearlyStat.t) : option Q :=
  agg_mean (YearlyStat.flesch_kincaid_score s).

(** What [groupby] promises: ascending keys; each group holds, in table
    order, the rows of the table with its key, and at least one; every
    row has its group. *)
Definition groups_ok {A} (key : A -> Z) (rows : list A)
  (gs : list (Z * list A)) : Prop :=
  StronglySorted Z.lt (map fst gs) /\
  Forall (fun kg : Z * list A =>
            snd kg = filter (fun a => (key a =? fst kg)%Z) rows /\
            snd kg <> [])
         gs /\
  (forall a, In a rows -> In (key a) (map fst gs)).

(** [sep.join(parts)] for a one-character separator. *)
Fixpoint join_rest (sep : ascii) (parts : list string) : string :=
  match parts with
  | [] => EmptyString
  | p :: ps => String sep (p ++ join_rest sep ps)
  end.

Definition join (sep : ascii) (parts : list string) : string :=
  match parts with
  | [] => EmptyString
  | p :: ps => (p ++ join_rest sep ps)%string
  end.

(* ================================================================== *)
(** * Sample inputs *)

Definition a_song : ChartEntry := mkEntry 1 "Blinding Lights" "The Weeknd".

(** A row with lyrics, in a given year and with a given score. *)
Definition scored (y : Z) (score : Q) : SongRecord :=
  mkSong y 1 "Song" "Artist" (Some true) 10 20 5 score (1 # 2).

Definition found_with_score (s : Q) : SongRecord := scored 2020 s.

Definition found_with_rank (k : Z) : SongRecord :=
  mkSong 2020 k "Song" "Artist" (Some true) 10 20 5 50 (1 # 2).

Definition no_lyrics_row : SongRecord :=
  mkSong 2020 1 "Song" "Artist" (Some false) 0 0 0 0 0.

Definition row_in (y : Z) (score : Q) : Categorized :=
  categorize (scored y score).

Definition found_row : Categorized := row_in 2020 50.

(** Three songs; the two lowest scores tie. *)
Definition three_songs : list Categorized :=
  [categorize (mkSong 2020 1 "B" "x" (Some true) 1 1 1 40 1);
   categorize (mkSong 2020 2 "A" "y" (Some true) 1 1 1 30 1);
   categorize (mkSong 2021 3 "C" "z" (Some true) 1 1 1 30 1)].


(** Scores at both ends of the admitted range, one outlier, one row
    without lyrics. *)
Definition extreme_batch : list SongRecord :=
  [scored 2019 100; scored 2020 (-50); scored 2020 150; no_lyrics_row;
   scored 2021 100].

(* ================================================================== *)
(** * Properties *)

(** ** Comparisons on [Q] *)

Lemma Qle_bool_inject_Z (a b : Z) :
  Qle_bool (inject_Z a) (inject_Z b) = (a <=? b)%Z.
Proof.
  unfold Qle_bool; simpl. now rewrite !Z.mul_1_r.
Qed.

Lemma Qle_bool_false (x y : Q) : Qle_bool x y = false <-> y < x.
Proof.
  split; intro H.
  - apply Qnot_le_lt. intro L. apply Qle_bool_iff in L. congruence.
  - destruct (Qle_bool x y) eqn:E; trivial.
    apply Qle_bool_iff in E. apply Qlt_not_le in H. contradiction.
Qed.

Lemma Qlt_bool_iff (x y : Q) : Qlt_bool x y = true <-> x < y.
Proof.
  unfold Qlt_bool. rewrite negb_true_iff. apply Qle_bool_false.
Qed.

Lemma between_iff (lo hi x : Q) :
  between lo hi x = true <-> lo <= x /\ x <= hi.
Proof.
  unfold between. now rewrite andb_true_iff, !Qle_bool_iff.
Qed.

(** ** RecordCleaner: [clean_data] *)

Lemma has_lyrics_iff (r : SongRecord) :
  has_lyrics r = true <-> lyrics_found r = Some true.
Proof.
  unfold has_lyrics. destruct (lyrics_found r) as [[|]|]; split; congruence.
Qed.

(** C5. A row survives [clean_data] exactly when it is a row of the input
    whose lyrics were found and whose [flesch_kincaid_score] lies in the
    closed interval [[-50, 100]]; the survivors keep their input order. *)
Theorem clean_data_retains_iff (data : list SongRecord) (r : SongRecord) :
  In r (clean_data data) <->
  In r data /\ lyrics_found r = Some true /\
  -50 <= flesch_kincaid_score r /\ flesch_kincaid_score r <= 100.
Proof.
  unfold clean_data, in_score_range.
  rewrite !filter_In, between_iff, has_lyrics_iff. tauto.
Qed.

(** The boundary scenario of C5: of the scores -60, -50, 100, 150 the
    cleaner keeps exactly -50 and 100. *)
Lemma clean_data_retains_iff_witness :
  let data := map found_with_score [-60; -50; 100; 150] in
  ~ In (found_with_score (-60)) (clean_data data) /\
  In (found_with_score (-50)) (clean_data data) /\
  In (found_with_score 100) (clean_data data) /\
  ~ In (found_with_score 150) (clean_data data).
Proof.
  cbv zeta. repeat split.
  - intro H. apply (proj1 (clean_data_retains_iff _ _)) in H.
    destruct H as (_ & _ & L & _). now apply Qle_bool_iff in L.
  - apply (proj2 (clean_data_retains_iff _ _)). simpl. repeat split; auto.
    + now apply Qle_bool_iff.
    + now apply Qle_bool_iff.
  - apply (proj2 (clean_data_retains_iff _ _)). simpl. repeat split; auto.
    + now apply Qle_bool_iff.
    + now apply Qle_bool_iff.
  - intro H. apply (proj1 (clean_data_retains_iff _ _)) in H.
    destruct H as (_ & _ & _ & L). now apply Qle_bool_iff in L.
Defined.

(** ** Categorizer: the two [pd.cut] calls *)

Ltac Qcmp :=
  repeat match goal with
  | H : Qle_bool _ _ = true |- _ => apply Qle_bool_iff in H
  | H : Qle_bool _ _ = false |- _ => apply Qle_bool_false in H
  end.

Ltac bin_case := intros; try reflexivity; exfalso; lra.

Lemma complexity_category_of_eq (s : Q) :
  complexity_category_of s =
  Some (if Qle_bool s 30 then "Very Complex"
        else if Qle_bool s 60 then "Complex"
        else if Qle_bool s 80 then "Moderate"
        else "Simple")%string.
Proof.
  unfold complexity_category_of, cut, complexity_bins, complexity_labels.
  simpl.
  destruct (Qle_bool s 30) eqn:E30; simpl; trivial.
  destruct (Qle_bool s 60) eqn:E60; simpl; trivial.
  destruct (Qle_bool s 80) eqn:E80; simpl; trivial.
Qed.

(** C6. The complexity category of a score is fixed by the left-open,
    right-closed bins (-inf,30], (30,60], (60,80], (80,inf): a score on an
    edge falls in the lower bin, and every row gets exactly one label. *)
Theorem complexity_category_bins (r : SongRecord) :
  let s := flesch_kincaid_score r in
  let c := complexity_category (categorize r) in
  (s <= 30 -> c = Some "Very Complex"%string) /\
  (30 < s /\ s <= 60 -> c = Some "Complex"%string) /\
  (60 < s /\ s <= 80 -> c = Some "Moderate"%string) /\
  (80 < s -> c = Some "Simple"%string) /\
  (exists! l, c = Some l) /\
  (exists l, c = Some l /\ In l complexity_labels).
Proof.
  cbv zeta. simpl. rewrite complexity_category_of_eq.
  set (s := flesch_kincaid_score r).
  destruct (Qle_bool s 30) eqn:E30;
    [| destruct (Qle_bool s 60) eqn:E60;
       [| destruct (Qle_bool s 80) eqn:E80 ] ];
    Qcmp;
    (split; [bin_case | split; [bin_case | split; [bin_case
       | split; [bin_case | split ] ] ] ];
     eexists; split;
       [reflexivity | intros ? [= <-]; reflexivity
       | reflexivity | simpl; tauto]).
Qed.

(** The edges 30, 60 and 80 belong to the lower bin. *)
Lemma complexity_category_bins_witness :
  map (fun s => complexity_category (categorize (found_with_score s)))
      [30; 60; 80; 81] =
  map Some ["Very Complex"; "Complex"; "Moderate"; "Simple"]%string.
Proof.
  pose proof (complexity_category_bins (found_with_score 30)) as (H30 & _).
  pose proof (complexity_category_bins (found_with_score 60)) as (_ & H60 & _).
  pose proof (complexity_category_bins (found_with_score 80))
    as (_ & _ & H80 & _).
  pose proof (complexity_category_bins (found_with_score 81))
    as (_ & _ & _ & H81 & _).
  cbv zeta in *. cbn [map].
  rewrite H30, H60, H80, H81; trivial; simpl; lra.
Defined.

Lemma rank_category_of_eq (k : Z) :
  rank_category_of k =
  (if k <=? 0 then None
   else if k <=? 10 then Some "Top 10"
   else if k <=? 25 then Some "Top 25"
   else if k <=? 50 then Some "Top 50"
   else if k <=? 100 then Some "Top 100"
   else None)%Z%string.
Proof.
  unfold rank_category_of, cut, rank_bins, rank_labels. simpl.
  change 0 with (inject_Z 0); change 10 with (inject_Z 10);
    change 25 with (inject_Z 25); change 50 with (inject_Z 50);
    change 100 with (inject_Z 100).
  rewrite !Qle_bool_inject_Z.
  destruct (k <=? 0)%Z eqn:E0; simpl.
  - repeat match goal with
           | |- context [(k <=? ?n)%Z] =>
               replace (k <=? n)%Z with true by (symmetry; lia); simpl
           end.
    reflexivity.
  - repeat match goal with
           | |- context [(k <=? ?n)%Z] => destruct (k <=? n)%Z; simpl
           end; reflexivity.
Qed.

Ltac rank_case :=
  intros;
  repeat match goal with
         | |- context [(?k <=? ?n)%Z] => destruct (Z.leb_spec k n)
         end;
  try reflexivity; exfalso; lia.

(** C7. The rank category follows the bins (0,10], (10,25], (25,50],
    (50,100]; the edges 10, 25, 50 and 100 fall in the lower bin, and a
    rank that is zero, negative or above 100 gets no category (a NaN
    cell), with no exception raised. *)
Theorem rank_category_bins (r : SongRecord) :
  let k := rank r in
  let c := rank_category (categorize r) in
  ((0 < k <= 10)%Z -> c = Some "Top 10"%string) /\
  ((10 < k <= 25)%Z -> c = Some "Top 25"%string) /\
  ((25 < k <= 50)%Z -> c = Some "Top 50"%string) /\
  ((50 < k <= 100)%Z -> c = Some "Top 100"%string) /\
  ((k <= 0 \/ 100 < k)%Z -> c = None).
Proof.
  cbv zeta. simpl. rewrite rank_category_of_eq.
  repeat split; rank_case.
Qed.

(** Edge ranks and ranks outside the chart. *)
Lemma rank_category_bins_witness :
  map (fun k => rank_category (categorize (found_with_rank k)))
      [10; 25; 50; 100; 0; -3; 101]%Z =
  [Some "Top 10"; Some "Top 25"; Some "Top 50"; Some "Top 100";
   None; None; None]%string.
Proof.
  pose proof (rank_category_bins (found_with_rank 10)) as (H10 & _).
  pose proof (rank_category_bins (found_with_rank 25)) as (_ & H25 & _).
  pose proof (rank_category_bins (found_with_rank 50)) as (_ & _ & H50 & _).
  pose proof (rank_category_bins (found_with_rank 100))
    as (_ & _ & _ & H100 & _).
  pose proof (rank_category_bins (found_with_rank 0)) as (_ & _ & _ & _ & H0).
  pose proof (rank_category_bins (found_with_rank (-3)))
    as (_ & _ & _ & _ & Hneg).
  pose proof (rank_category_bins (found_with_rank 101))
    as (_ & _ & _ & _ & H101).
  cbv zeta in *. cbn [map].
  rewrite H10, H25, H50, H100, H0, Hneg, H101; trivial; simpl; lia.
Defined.

(** ** MetricCalculator on absent and empty lyrics *)

(** C3, as the claim states it, fails for the empty string: the row built
    from it is marked as found. *)
Lemma empty_lyrics_counterexample :
  ~ (calculate_complexity_metrics None
       = calculate_complexity_metrics (Some ""%string) /\
     lyrics_found (song_data 2020 a_song None) = Some false /\
     lyrics_found (song_data 2020 a_song (Some ""%string)) = Some false).
Proof.
  intros (_ & _ & H). discriminate H.
Qed.

(** C3, amended. Absent lyrics and the empty string give the same
    all-zero metrics; the row built by [process_year] carries
    [lyrics_found = False] for absent lyrics and [lyrics_found = True] for
    the empty string, since the flag of every row is [lyrics is not None]
    of what the search returned. *)
Theorem absent_and_empty_lyrics (y : Z) (s : ChartEntry) :
  calculate_complexity_metrics None = zero_metrics /\
  calculate_complexity_metrics (Some ""%string) = zero_metrics /\
  song_data y s None =
    mkSong y (entry_rank s) (entry_title s) (entry_artist s)
           (Some false) 0 0 0 0 0 /\
  song_data y s (Some ""%string) =
    mkSong y (entry_rank s) (entry_title s) (entry_artist s)
           (Some true) 0 0 0 0 0 /\
  (forall search hot_100,
     map lyrics_found (process_year search y hot_100)
     = map (fun e =>
              Some (is_not_None (search (entry_title e) (entry_artist e))))
           hot_100).
Proof.
  repeat split.
  intros search hot_100. unfold process_year. rewrite map_map.
  apply map_ext. reflexivity.
Qed.

(** ** The quality gate of the DAG *)

Lemma sum_lyrics_found_le (df : list Categorized) :
  (sum_lyrics_found df <= length df)%nat.
Proof.
  apply filter_length_le.
Qed.

(** What the gate computes: it passes exactly when there are at least 100
    rows and at most half of them have [lyrics_found] set. *)
Lemma data_quality_check_passes_iff
  (f : Z * list Categorized) (files : list (Z * list Categorized)) :
  let df := snd (latest f files) in
  data_quality_check (f :: files) = ret "quality_check_passed"%string <->
  (100 <= length df /\ 2 * sum_lyrics_found df <= length df)%nat.
Proof.
  cbv zeta. unfold data_quality_check, quality_checks. simpl.
  destruct (Nat.ltb_spec (length (snd (latest f files))) 100).
  - split; [discriminate | lia].
  - match goal with
    | |- context [(?a <? ?b)%nat] => destruct (Nat.ltb_spec a b)
    end.
    + split; [discriminate |]. simpl in *. lia.
    + split; [intros _ | reflexivity]. simpl in *. lia.
Qed.

(** C4 at its failing inputs: 100 rows, none with missing lyrics, are
    rejected with the message about too many missing lyrics, and 100 rows
    that all miss their lyrics pass, because the count named
    [missing_lyrics] is the number of rows whose lyrics were found. *)
Theorem quality_gate_rejects_complete_run :
  let complete := repeat found_row 100 in
  let missing := repeat (categorize no_lyrics_row) 100 in
  length complete = 100%nat /\
  length (filter (fun r => negb (has_lyrics (song r))) complete) = 0%nat /\
  data_quality_check [(0%Z, complete)] =
    inl (Exception "Too many missing lyrics" [100; 100]%nat) /\
  length (filter (fun r => negb (has_lyrics (song r))) missing) = 100%nat /\
  data_quality_check [(0%Z, missing)] = ret "quality_check_passed"%string.
Proof.
  cbv zeta. repeat split.
Qed.

(** ** InsightExtractor: [generate_insights] *)

Lemma arg_best_lt (better : Q -> Q -> bool) (xs : list Q) :
  forall best besti i,
    (besti < i)%nat ->
    (arg_best better best besti i xs < i + length xs)%nat.
Proof.
  induction xs as [|x xs IH]; intros best besti i Hlt; simpl.
  - lia.
  - destruct (better x best).
    + specialize (IH x i (S i)). lia.
    + specialize (IH best besti (S i)). lia.
Qed.

Lemma idxmin_some (xs : list Q) :
  xs <> [] -> exists i, idxmin xs = inr i /\ (i < length xs)%nat.
Proof.
  destruct xs as [|x xs]; [congruence | intros _].
  eexists; split; [reflexivity |].
  pose proof (arg_best_lt Qlt_bool xs x 0%nat 1%nat). simpl. lia.
Qed.

Lemma idxmax_some (xs : list Q) :
  xs <> [] -> exists i, idxmax xs = inr i /\ (i < length xs)%nat.
Proof.
  destruct xs as [|x xs]; [congruence | intros _].
  eexists; split; [reflexivity |].
  pose proof (arg_best_lt (fun a b => Qlt_bool b a) xs x 0%nat 1%nat).
  simpl. lia.
Qed.

Lemma loc_title_some (data : list Categorized) (i : nat) :
  (i < length data)%nat -> exists t, loc_title data i = inr t.
Proof.
  intro H. unfold loc_title.
  destruct (nth_error data i) eqn:E.
  - eexists; reflexivity.
  - apply nth_error_None in E. lia.
Qed.

(** On a non-empty table [generate_insights] returns, and the trend entry
    of what it returns is [trend_of]. *)
Lemma generate_insights_some (data : list Categorized) :
  data <> [] ->
  exists ins,
    generate_insights data = inr ins /\
    Insights.total_songs_analyzed ins = length data /\
    Insights.complexity_trend ins = trend_of data.
Proof.
  intro Hne. unfold generate_insights.
  assert (Hmap : forall f : Categorized -> Q, map f data <> []).
  { intros f E. apply map_eq_nil in E. contradiction. }
  destruct (idxmin_some _ (Hmap fk)) as (i1 & -> & L1).
  destruct (idxmax_some _ (Hmap fk)) as (i2 & -> & L2).
  destruct (idxmax_some _ (Hmap (fun r => lexical_diversity (song r))))
    as (i3 & -> & L3).
  destruct (idxmax_some _ (Hmap (fun r => unique_words (song r))))
    as (i4 & -> & L4).
  rewrite length_map in *.
  destruct (loc_title_some data i1 L1) as (t1 & E1).
  destruct (loc_title_some data i2 L2) as (t2 & E2).
  destruct (loc_title_some data i3 L3) as (t3 & E3).
  destruct (loc_title_some data i4 L4) as (t4 & E4).
  simpl. rewrite E1. simpl. rewrite E2. simpl. rewrite E3. simpl.
  rewrite E4. simpl.
  eexists; repeat split.
Qed.

Lemma clean_data_no_lyrics (csv : list SongRecord) :
  Forall (fun r => lyrics_found r <> Some true) csv -> clean_data csv = [].
Proof.
  intro H. unfold clean_data.
  replace (filter has_lyrics csv) with (@nil SongRecord); trivial.
  symmetry. induction H as [|r csv Hr _ IH]; simpl; trivial.
  destruct (has_lyrics r) eqn:E; trivial.
  apply has_lyrics_iff in E. contradiction.
Qed.

(** C1, as the claim states it, fails: on 100 rows without lyrics the
    transformer returns no summary at all. *)
Lemma empty_batch_counterexample :
  ~ exists ins, run_transformer (repeat no_lyrics_row 100) = inr ins.
Proof.
  intros (ins & H). discriminate H.
Qed.

(** C1, amended. On an empty table [generate_insights] returns no summary:
    it raises the [ValueError] of the first extreme lookup ([idxmin] of an
    empty column).  A batch in which no row has its lyrics found cleans to
    the empty table, so the transformer raises on it. *)
Theorem empty_batch_raises (csv : list SongRecord) :
  Forall (fun r => lyrics_found r <> Some true) csv ->
  generate_insights [] =
    inl (ValueError "attempt to get argmin of an empty sequence") /\
  clean_data csv = [] /\
  run_transformer csv =
    inl (ValueError "attempt to get argmin of an empty sequence").
Proof.
  intro H. apply clean_data_no_lyrics in H.
  unfold run_transformer. rewrite H. repeat split.
Qed.

Lemma empty_batch_raises_witness :
  clean_data (repeat no_lyrics_row 100) = [] /\
  run_transformer (repeat no_lyrics_row 100) =
    inl (ValueError "attempt to get argmin of an empty sequence").
Proof.
  apply (empty_batch_raises (repeat no_lyrics_row 100)).
  apply Forall_forall. intros r Hr.
  apply repeat_spec in Hr. subst r. discriminate.
Defined.

Lemma mean_some (xs : list Q) :
  xs <> [] -> mean xs = Some (Qred (Qsum xs / Qlen xs)).
Proof.
  destruct xs; [congruence | reflexivity].
Qed.

Lemma length_pos {A} (l : list A) : l <> [] -> (0 <? length l)%nat = true.
Proof.
  destruct l; [congruence | reflexivity].
Qed.

(** C10. When both sides of the split at 2020 hold rows, the insights
    carry a trend entry; with equal means on the two sides its direction
    is "More Complex", and "Simpler" stands exactly for a strictly
    positive change. *)
Theorem trend_direction (data : list Categorized) :
  let recent := filter (fun r => (2020 <=? year (song r))%Z) data in
  let older := filter (fun r => (year (song r) <? 2020)%Z) data in
  recent <> [] -> older <> [] ->
  exists ins t a b,
    generate_insights data = inr ins /\
    Insights.complexity_trend ins = Some t /\
    mean (map fk recent) = Some a /\
    mean (map fk older) = Some b /\
    (a == b -> Insights.trend t = "More Complex"%string) /\
    (Insights.trend t = "Simpler"%string <-> b < a).
Proof.
  cbv zeta. intros Hr Ho.
  assert (Hne : data <> []) by (intros ->; now apply Hr).
  destruct (generate_insights_some data Hne) as (ins & E & _ & T).
  assert (Mr : forall l : list Categorized, l <> [] -> map fk l <> []).
  { intros l H E'. apply map_eq_nil in E'. contradiction. }
  pose proof (mean_some _ (Mr _ Hr)) as Ea.
  pose proof (mean_some _ (Mr _ Ho)) as Eb.
  unfold trend_of in T.
  rewrite (length_pos _ Hr), (length_pos _ Ho), Ea, Eb in T. simpl in T.
  eexists ins, _, _, _. repeat split; try eassumption; simpl.
  - intro Heq.
    match goal with
    | |- context [Qlt_bool ?x ?y] => destruct (Qlt_bool x y) eqn:L
    end; trivial.
    apply Qlt_bool_iff in L. lra.
  - match goal with
    | |- context [Qlt_bool ?x ?y] => destruct (Qlt_bool x y) eqn:L
    end; [intros _ | discriminate].
    apply Qlt_bool_iff in L. lra.
  - intro Hlt.
    match goal with
    | |- context [Qlt_bool ?x ?y] => destruct (Qlt_bool x y) eqn:L
    end; trivial.
    exfalso. apply not_true_iff_false in L. apply L.
    apply Qlt_bool_iff. lra.
Qed.

(** Equal means on both sides of the split. *)
Lemma trend_direction_witness :
  exists ins t,
    generate_insights [row_in 2019 50; row_in 2021 50] = inr ins /\
    Insights.complexity_trend ins = Some t /\
    Insights.trend t = "More Complex"%string.
Proof.
  destruct (trend_direction [row_in 2019 50; row_in 2021 50])
    as (ins & t & a & b & E & T & Ea & Eb & Heq & _).
  - discriminate.
  - discriminate.
  - exists ins, t. repeat split; trivial.
    apply Heq. vm_compute in Ea, Eb.
    injection Ea as <-. injection Eb as <-. reflexivity.
Defined.

(** ** MetricCalculator: bounds *)

Lemma round_half_even_between (a b : Z) (q : Q) :
  inject_Z a <= q -> q <= inject_Z b ->
  (a <= round_half_even q <= b)%Z.
Proof.
  destruct q as [n d]. unfold Qle, round_half_even.
  cbn [Qnum Qden inject_Z]. rewrite !Z.mul_1_r. intros Ha Hb.
  pose proof (Z.div_mod n (Zpos d) ltac:(lia)) as Hdm.
  pose proof (Z.mod_pos_bound n (Zpos d) ltac:(lia)) as Hr.
  assert (a <= n / Zpos d)%Z by (apply Z.div_le_lower_bound; lia).
  assert (n / Zpos d <= b)%Z by (apply Z.div_le_upper_bound; lia).
  set (f := (n / Zpos d)%Z) in *. set (r := (n mod Zpos d)%Z) in *.
  assert (f = b -> r = 0)%Z by (intros ->; lia).
  destruct (Z.compare_spec (2 * r) (Zpos d));
    [destruct (Z.even f) | | ]; lia.
Qed.

Lemma round_nd_unit (d : nat) (q : Q) :
  0 <= q -> q <= 1 -> 0 <= round_nd d q /\ round_nd d q <= 1.
Proof.
  intros H0 H1. unfold round_nd. rewrite Qred_correct.
  set (P := pow10 d).
  assert (HP : 0 < inject_Z (Zpos P)) by (unfold Qlt; simpl; lia).
  destruct (round_half_even_between 0 (Zpos P) (q * inject_Z (Zpos P)))
    as [L U].
  - change (inject_Z 0) with 0. nra.
  - nra.
  - unfold Qle; simpl. split; lia.
Qed.

Lemma distinct_length (ws : list string) :
  (length (distinct ws) <= length ws)%nat.
Proof.
  unfold distinct. induction ws as [|w ws IH]; simpl; trivial.
  destruct (in_dec string_dec w ws); simpl; lia.
Qed.

Lemma Qnat_ratio_unit (u t : nat) :
  (u <= t)%nat -> (0 < t)%nat -> 0 <= Qnat u / Qnat t /\ Qnat u / Qnat t <= 1.
Proof.
  intros Hu Ht. unfold Qnat.
  assert (0 < inject_Z (Z.of_nat t)).
  { change 0 with (inject_Z 0). rewrite <- Zlt_Qlt. lia. }
  assert (0 <= inject_Z (Z.of_nat u)).
  { change 0 with (inject_Z 0). rewrite <- Zle_Qle. lia. }
  assert (inject_Z (Z.of_nat u) <= inject_Z (Z.of_nat t)).
  { rewrite <- Zle_Qle. lia. }
  split.
  - apply Qle_shift_div_l; trivial; lra.
  - apply Qle_shift_div_r; trivial; lra.
Qed.

(** C9. For every lyric text, and for absent lyrics, the lexical diversity
    lies in [[0, 1]], the unique words are at most the total words, and
    the diversity is 0 when there are no words. *)
Theorem lexical_diversity_bounds (lyrics : option string) :
  let m := calculate_complexity_metrics lyrics in
  (0 <= Metrics.lexical_diversity m /\ Metrics.lexical_diversity m <= 1) /\
  (Metrics.unique_words m <= Metrics.total_words m)%nat /\
  (Metrics.total_words m = 0%nat -> Metrics.lexical_diversity m = 0).
Proof.
  cbv zeta. unfold calculate_complexity_metrics.
  destruct lyrics as [[|c s0]|];
    try (simpl; repeat split; (lra || lia)).
  set (s := String c s0). unfold metrics_of_text.
  cbn [Metrics.lexical_diversity Metrics.unique_words Metrics.total_words].
  pose proof (distinct_length (split_ws s)) as Hd.
  destruct (Nat.ltb_spec 0 (length (split_ws s))) as [Hpos | Hz].
  - split; [| split; [exact Hd | lia]].
    apply round_nd_unit; now apply Qnat_ratio_unit.
  - split; [| split; [exact Hd | intros _; reflexivity]].
    apply round_nd_unit; lra.
Qed.

(** Empty, blank, single-line and repetitive texts. *)
Lemma lexical_diversity_bounds_witness :
  map (fun l => Metrics.lexical_diversity (calculate_complexity_metrics l))
      [None; Some ""; Some "  "; Some "la la la"; Some "one two"]%string
  = [0; 0; 0; 0.333; 1].
Proof.
  pose proof (lexical_diversity_bounds None) as (_ & _ & H1).
  pose proof (lexical_diversity_bounds (Some ""%string)) as (_ & _ & H2).
  pose proof (lexical_diversity_bounds (Some "  "%string)) as (_ & _ & H3).
  cbv zeta in *. cbn [map].
  rewrite H1, H2, H3; reflexivity.
Defined.

(** ** Aggregator: [groupby] *)

Section GroupByFacts.
Context {A : Type}.
Variable key : A -> Z.

Lemma add_to_group_keys (a : A) (gs : list (Z * list A)) (k : Z) :
  In k (map fst (add_to_group key a gs)) <->
  k = key a \/ In k (map fst gs).
Proof.
  induction gs as [|[k' g] gs IH]; simpl.
  - intuition.
  - destruct (Z.compare_spec (key a) k') as [E|L|G]; simpl.
    + subst k'. intuition.
    + intuition.
    + rewrite IH. intuition.
Qed.

Lemma add_to_group_sorted (a : A) (gs : list (Z * list A)) :
  StronglySorted Z.lt (map fst gs) ->
  StronglySorted Z.lt (map fst (add_to_group key a gs)).
Proof.
  induction gs as [|[k g] gs IH]; simpl; intro S.
  - repeat constructor.
  - inversion S as [|? ? S' F]; subst.
    destruct (Z.compare_spec (key a) k) as [E|L|G]; simpl.
    + now constructor.
    + constructor; [exact S |].
      constructor; [exact L |].
      eapply Forall_impl; [| exact F]. simpl. intros; lia.
    + constructor; [now apply IH |].
      apply Forall_forall. intros k' Hk'.
      apply add_to_group_keys in Hk' as [-> | Hk']; [lia |].
      rewrite Forall_forall in F. now apply F.
Qed.

Lemma filter_snoc (f : A -> bool) (rows : list A) (a : A) :
  filter f (rows ++ [a]) = filter f rows ++ (if f a then [a] else []).
Proof.
  rewrite filter_app. reflexivity.
Qed.

Lemma filter_none (f : A -> bool) (rows : list A) :
  (forall b, In b rows -> f b = false) -> filter f rows = [].
Proof.
  induction rows as [|b rows IH]; simpl; intro H; trivial.
  rewrite (H b (or_introl eq_refl)). apply IH. intros; apply H; now right.
Qed.

Lemma add_to_group_contents (rows : list A) (a : A)
  (gs : list (Z * list A)) :
  StronglySorted Z.lt (map fst gs) ->
  Forall (fun kg : Z * list A =>
            snd kg = filter (fun a => (key a =? fst kg)%Z) rows /\
            snd kg <> []) gs ->
  (forall b, In b rows -> key b = key a -> In (key a) (map fst gs)) ->
  Forall (fun kg : Z * list A =>
            snd kg = filter (fun a => (key a =? fst kg)%Z) (rows ++ [a]) /\
            snd kg <> []) (add_to_group key a gs).
Proof.
  induction gs as [|[k g] gs IH]; simpl; intros S F Hall.
  - constructor; [| constructor]. simpl.
    rewrite filter_snoc, Z.eqb_refl. split; [| discriminate].
    replace (filter (fun a0 => (key a0 =? key a)%Z) rows) with (@nil A);
      trivial.
    symmetry. apply filter_none. intros b Hb.
    destruct (Z.eqb_spec (key b) (key a)) as [E|]; trivial.
    destruct (Hall b Hb E).
  - inversion S as [|? ? S' FS]; subst.
    inversion F as [|? ? [Hg Hne] F']; subst. simpl in Hg, Hne.
    assert (Other : forall kg : Z * list A,
               fst kg <> key a ->
               snd kg = filter (fun a0 => (key a0 =? fst kg)%Z) rows /\
               snd kg <> [] ->
               snd kg
               = filter (fun a0 => (key a0 =? fst kg)%Z) (rows ++ [a]) /\
               snd kg <> []).
    { intros kg Hk [E N]. split; trivial.
      rewrite filter_snoc.
      destruct (Z.eqb_spec (key a) (fst kg)); [congruence |].
      now rewrite app_nil_r. }
    destruct (Z.compare_spec (key a) k) as [E|L|G]; simpl.
    + subst k. constructor; simpl.
      * rewrite filter_snoc, Z.eqb_refl, Hg. split; trivial.
        intro E. now apply app_eq_nil in E as [_ E].
      * rewrite Forall_forall in *. intros kg Hkg.
        apply Other; [| now apply F'].
        specialize (FS (fst kg) (in_map fst _ _ Hkg)). lia.
    + constructor; simpl.
      * rewrite filter_snoc, Z.eqb_refl. split.
        -- replace (filter (fun a0 => (key a0 =? key a)%Z) rows)
             with (@nil A); trivial.
           symmetry. apply filter_none. intros b Hb.
           destruct (Z.eqb_spec (key b) (key a)) as [E|]; trivial.
           specialize (Hall b Hb E). simpl in Hall.
           rewrite Forall_forall in FS.
           destruct Hall as [Hk | Hk]; [lia |].
           specialize (FS _ Hk). lia.
        -- discriminate.
      * constructor.
        -- apply (Other (k, g)); simpl; [lia | tauto].
        -- rewrite Forall_forall in *. intros kg Hkg.
           apply Other; [| now apply F'].
           specialize (FS (fst kg) (in_map fst _ _ Hkg)). lia.
    + constructor.
      * apply (Other (k, g)); simpl; [lia | tauto].
      * apply IH; trivial.
        intros b Hb Eb. destruct (Hall b Hb Eb) as [Hk | Hk]; trivial.
           simpl in Hk. lia.
Qed.
End GroupByFacts.

Lemma add_to_group_ok {A} (key : A -> Z) (rows : list A) (a : A)
  (gs : list (Z * list A)) :
  groups_ok key rows gs -> groups_ok key (rows ++ [a]) (add_to_group key a gs).
Proof.
  intros (S & F & C). repeat split.
  - now apply add_to_group_sorted.
  - apply add_to_group_contents; trivial.
    intros b Hb <-. now apply C.
  - intros b Hb. apply add_to_group_keys.
    apply in_app_or in Hb as [Hb | [<- | []]]; auto.
Qed.

Lemma fold_add_ok {A} (key : A -> Z) (rows : list A) :
  forall done gs,
    groups_ok key done gs ->
    groups_ok key (done ++ rows)
      (fold_left (fun gs a => add_to_group key a gs) rows gs).
Proof.
  induction rows as [|a rows IH]; intros done gs H; simpl.
  - now rewrite app_nil_r.
  - replace (done ++ a :: rows) with ((done ++ [a]) ++ rows)
      by now rewrite <- app_assoc.
    apply IH. now apply add_to_group_ok.
Qed.

Lemma groupby_ok {A} (key : A -> Z) (rows : list A) :
  groups_ok key rows (groupby key rows).
Proof.
  apply (fold_add_ok key rows [] []).
  repeat split; try constructor. intros a [].
Qed.

(** A key has a group exactly when some row carries it. *)
Lemma groupby_keys {A} (key : A -> Z) (rows : list A) (k : Z) :
  In k (map fst (groupby key rows)) <-> In k (map key rows).
Proof.
  destruct (groupby_ok key rows) as (_ & F & C). split.
  - intro H. apply in_map_iff in H as ([k' g] & <- & Hin).
    rewrite Forall_forall in F. destruct (F _ Hin) as [E N]. simpl in *.
    destruct g as [|a g]; [congruence |].
    assert (Ha : In a (filter (fun a => (key a =? k')%Z) rows))
      by (rewrite <- E; now left).
    apply filter_In in Ha as [Ha Hk]. apply Z.eqb_eq in Hk. subst k'.
    now apply in_map.
  - intro H. apply in_map_iff in H as (a & <- & Ha). now apply C.
Qed.

(** ** Aggregator: [diff] and the yearly table *)

Lemma diff_from_length (xs : list (option Q)) :
  forall prev, length (diff_from prev xs) = length xs.
Proof.
  induction xs; intro; simpl; auto.
Qed.

Lemma diff_from_nth (xs : list (option Q)) :
  forall prev i a b,
    nth_error xs i = Some a ->
    nth_error xs (S i) = Some b ->
    nth_error (diff_from prev xs) (S i) = Some (Qsub_opt b a).
Proof.
  induction xs as [|x xs IH]; intros prev i a b Ha Hb.
  - destruct i; discriminate.
  - destruct i as [|i]; simpl in *.
    + injection Ha as ->. destruct xs as [|y xs]; [discriminate |].
      simpl in *. now injection Hb as ->.
    + now apply IH.
Qed.

Lemma map_combine_l {A B C} (f : A -> C) (l : list A) :
  forall l' : list B,
    length l = length l' ->
    map (fun p => f (fst p)) (combine l l') = map f l.
Proof.
  induction l as [|a l IH]; intros [|b l'] H; simpl in *;
    try discriminate; trivial.
  f_equal. apply IH. lia.
Qed.

Lemma map_combine_r {A B C} (f : B -> C) (l : list A) :
  forall l' : list B,
    length l = length l' ->
    map (fun p => f (snd p)) (combine l l') = map f l'.
Proof.
  induction l as [|a l IH]; intros [|b l'] H; simpl in *;
    try discriminate; trivial.
  f_equal. apply IH. lia.
Qed.

Lemma yearly_stats_columns (data : list SongRecord) :
  map YearlyStat.year (yearly_stats data) = map fst (groupby year data) /\
  map YearlyStat.complexity_trend (yearly_stats data)
  = diff (map fk_mean (yearly_stats data)) /\
  map fk_mean (yearly_stats data)
  = map (fun kg => option_map (round_nd 3)
                     (mean (col flesch_kincaid_score (snd kg))))
        (groupby year data).
Proof.
  unfold yearly_stats.
  set (rows := yearly_agg data).
  set (m := fun r : Z * (Agg * Agg * Agg * Agg) =>
              agg_mean (fst (fst (fst (snd r))))).
  assert (L : length rows = length (diff (map m rows))).
  { unfold diff. now rewrite diff_from_length, length_map. }
  assert (M : map fk_mean
                (map (fun rt : Z * (Agg * Agg * Agg * Agg) * option Q =>
                        let '(y, (fk, ld, uw, tw), t) := rt in
                        YearlyStat.mk y fk ld uw tw t)
                     (combine rows (diff (map m rows))))
              = map m rows).
  { rewrite map_map.
    transitivity (map (fun p : Z * (Agg * Agg * Agg * Agg) * option Q =>
                         m (fst p)) (combine rows (diff (map m rows)))).
    - apply map_ext. now intros [[y [[[a b] c] d]] t].
    - now apply map_combine_l. }
  split; [| split].
  - rewrite map_map.
    transitivity (map (fun p : Z * (Agg * Agg * Agg * Agg) * option Q =>
                         fst (fst p)) (combine rows (diff (map m rows)))).
    { apply map_ext. now intros [[y [[[a b] c] d]] t]. }
    rewrite (map_combine_l fst rows _ L).
    unfold rows, yearly_agg. rewrite map_map. reflexivity.
  - rewrite M. rewrite map_map.
    transitivity (map (fun p : Z * (Agg * Agg * Agg * Agg) * option Q =>
                         snd p) (combine rows (diff (map m rows)))).
    { apply map_ext. now intros [[y [[[a b] c] d]] t]. }
    now rewrite (map_combine_r (fun t => t) rows _ L), map_id.
  - rewrite M. unfold rows, yearly_agg. rewrite map_map. reflexivity.
Qed.

Lemma groupby_group {A} (key : A -> Z) (rows : list A) (k : Z) (g : list A) :
  In (k, g) (groupby key rows) ->
  g = filter (fun a => (key a =? k)%Z) rows /\ g <> [].
Proof.
  intro H. destruct (groupby_ok key rows) as (_ & F & _).
  rewrite Forall_forall in F. exact (F _ H).
Qed.

(** A row of the yearly table aggregates the rows of the table that carry
    its year, and there is at least one of them. *)
Lemma yearly_stats_row (data : list SongRecord) (s : YearlyStat.t) :
  In s (yearly_stats data) ->
  let g := filter (fun r => (year r =? YearlyStat.year s)%Z) data in
  g <> [] /\
  YearlyStat.flesch_kincaid_score s
    = agg_round 3 (col flesch_kincaid_score g) /\
  YearlyStat.lexical_diversity s = agg_round 3 (col lexical_diversity g) /\
  YearlyStat.unique_words s = agg_round 3 (col unique_words g) /\
  YearlyStat.total_words s = agg_round 3 (col total_words g).
Proof.
  unfold yearly_stats. intro H.
  apply in_map_iff in H as ([[y [[[a b] c] d]] t] & <- & H).
  apply in_combine_l in H. unfold yearly_agg in H.
  apply in_map_iff in H as ([k g] & E & H). simpl in E.
  injection E as -> <- <- <- <-.
  apply groupby_group in H as [-> N]. simpl. auto.
Qed.

Lemma col_nonempty (f : SongRecord -> Q) (g : list SongRecord) :
  g <> [] -> col f g <> [].
Proof.
  intros N E. apply map_eq_nil in E. contradiction.
Qed.

Lemma fk_mean_some (data : list SongRecord) (s : YearlyStat.t) :
  In s (yearly_stats data) -> exists a, fk_mean s = Some a.
Proof.
  intro H. destruct (yearly_stats_row data s H) as (N & E & _).
  unfold fk_mean. rewrite E. simpl.
  rewrite (mean_some _ (col_nonempty _ _ N)). simpl. eauto.
Qed.

(** C8. The yearly table has one row per year of the table, in strictly
    ascending year order; the first row has no trend, and every later row
    has as trend its mean score minus the mean score of the row before it
    (means as the table holds them, rounded to 3 decimals).  With mean
    scores 50, 55, 52 the trends are NaN, 5, -3. *)
Theorem yearly_trend (data : list SongRecord) :
  let ys := yearly_stats data in
  StronglySorted Z.lt (map YearlyStat.year ys) /\
  (forall y, In y (map YearlyStat.year ys) <-> In y (map year data)) /\
  (forall s, In s ys ->
     fk_mean s
     = option_map (round_nd 3)
         (mean (col flesch_kincaid_score
                  (filter (fun r => (year r =? YearlyStat.year s)%Z) data)))) /\
  (forall s, nth_error ys 0 = Some s ->
     YearlyStat.complexity_trend s = None) /\
  (forall i p s,
     nth_error ys i = Some p -> nth_error ys (S i) = Some s ->
     exists a b,
       fk_mean p = Some a /\ fk_mean s = Some b /\
       YearlyStat.complexity_trend s = Some (Qred (b - a))) /\
  (map fk_mean ys = [Some 50; Some 55; Some 52] ->
   map YearlyStat.complexity_trend ys = [None; Some 5; Some (-3)]).
Proof.
  cbv zeta.
  destruct (yearly_stats_columns data) as (Ey & Et & _).
  split; [| split; [| split; [| split; [| split]]]].
  - rewrite Ey. apply (groupby_ok year data).
  - intro y. rewrite Ey. apply groupby_keys.
  - intros s Hs. destruct (yearly_stats_row data s Hs) as (_ & E & _).
    unfold fk_mean. now rewrite E.
  - intros s Hs.
    apply (map_nth_error YearlyStat.complexity_trend) in Hs.
    rewrite Et in Hs.
    destruct (map fk_mean (yearly_stats data)) as [|o l]; [discriminate |].
    simpl in Hs. injection Hs as <-. now destruct o.
  - intros i p s Hp Hs.
    destruct (fk_mean_some data p (nth_error_In _ _ Hp)) as (a & Ea).
    destruct (fk_mean_some data s (nth_error_In _ _ Hs)) as (b & Eb).
    exists a, b. repeat split; trivial.
    pose proof (map_nth_error YearlyStat.complexity_trend _ _ Hs) as T.
    rewrite Et in T.
    apply (map_nth_error fk_mean) in Hp, Hs.
    unfold diff in T.
    rewrite (diff_from_nth _ None i _ _ Hp Hs), Ea, Eb in T.
    simpl in T. now injection T as <-.
  - intro M. rewrite Et, M. reflexivity.
Qed.

(** Three years, given out of order, with mean scores 50, 55 and 52. *)
Lemma yearly_trend_witness :
  let data := [scored 2021 52; scored 2019 40; scored 2020 55;
               scored 2019 60] in
  map YearlyStat.year (yearly_stats data) = [2019; 2020; 2021]%Z /\
  map YearlyStat.complexity_trend (yearly_stats data)
  = [None; Some 5; Some (-3)].
Proof.
  cbv zeta. split; [reflexivity |].
  apply (yearly_trend
           [scored 2021 52; scored 2019 40; scored 2020 55; scored 2019 60]).
  reflexivity.
Defined.

(** ** Aggregator: the standard deviation *)

Lemma nearest_sqrt_spec (w : Q) :
  0 <= w ->
  let k := nearest_sqrt w in
  (0 <= k)%Z /\
  w <= inject_Z ((2 * k + 1) * (2 * k + 1)) /\
  (k = 0%Z \/ inject_Z ((2 * k - 1) * (2 * k - 1)) <= w).
Proof.
  intro Hw. cbv zeta. unfold nearest_sqrt.
  set (F := Qfloor w).
  assert (HF : (0 <= F)%Z).
  { change 0%Z with (Qfloor 0). now apply Qfloor_resp_le. }
  pose proof (Z.sqrt_spec F HF) as [Hlo Hhi].
  pose proof (Z.sqrt_nonneg F) as Hs.
  set (s := Z.sqrt F) in *.
  assert (Lo : inject_Z (s * s) <= w).
  { apply Qle_trans with (inject_Z F); [now rewrite <- Zle_Qle |].
    apply Qfloor_le. }
  assert (Hi : w < inject_Z ((s + 1) * (s + 1))).
  { apply Qlt_le_trans with (inject_Z (F + 1)); [apply Qlt_floor |].
    rewrite <- Zle_Qle. unfold Z.succ in Hhi. lia. }
  destruct (Z.odd s && Qeq_bool (inject_Z (s * s)) w) eqn:T.
  - apply andb_true_iff in T as [Todd Teq].
    apply Qeq_bool_iff in Teq.
    apply Z.odd_spec in Todd as [j Ej].
    replace ((s - 1) / 2)%Z with j
      by (rewrite Ej; apply Z.div_unique with 0%Z; lia).
    rewrite <- Teq.
    destruct (Z.even j); (split; [lia |]); rewrite <- !Zle_Qle;
      (split; [nia |]); right; nia.
  - clear T.
    assert (Hk : (2 * ((s + 1) / 2) - 1 <= s <= 2 * ((s + 1) / 2))%Z).
    { pose proof (Z.div_mod (s + 1) 2 ltac:(lia)).
      pose proof (Z.mod_pos_bound (s + 1) 2 ltac:(lia)). lia. }
    set (k := ((s + 1) / 2)%Z) in *.
    split; [lia |]. split.
    + apply Qlt_le_weak. eapply Qlt_le_trans; [exact Hi |].
      rewrite <- Zle_Qle. nia.
    + destruct (Z.eq_dec k 0) as [-> | Nz]; [now left | right].
      eapply Qle_trans; [| exact Lo]. rewrite <- Zle_Qle. nia.
Qed.

Lemma scaled_sq (k : Z) (P : positive) (e : Z) :
  ((k # P) + (e # (2 * P))) * ((k # P) + (e # (2 * P)))
  * inject_Z (4 * Zpos P * Zpos P)
  == inject_Z ((2 * k + e) * (2 * k + e)).
Proof.
  unfold Qeq, Qplus, Qmult, inject_Z. cbn [Qnum Qden].
  rewrite !Pos2Z.inj_mul. ring.
Qed.

Lemma sqrt_round_nd_spec (d : nat) (v : Q) :
  0 <= v -> rounded_sqrt d v (sqrt_round_nd d v).
Proof.
  intro Hv. unfold rounded_sqrt, sqrt_round_nd, half_unit, Qsq. cbv zeta.
  set (P := pow10 d).
  set (c := inject_Z (4 * Zpos P * Zpos P)).
  assert (Hc : 0 < c) by (unfold c, Qlt; simpl; lia).
  assert (Hw : 0 <= v * c) by nra.
  destruct (nearest_sqrt_spec (v * c) Hw) as (Hk & Hup & Hlow).
  set (k := nearest_sqrt (v * c)) in *.
  rewrite !Qred_correct.
  split; [unfold Qle; simpl; lia |].
  split; [exists k; apply Qred_correct |].
  split.
  - apply (Qmult_le_r _ _ c Hc).
    pose proof (scaled_sq k P 1) as E. fold c in E.
    rewrite E. exact Hup.
  - destruct Hlow as [-> | Hlow]; [left; reflexivity | right].
    apply (Qmult_le_r _ _ c Hc).
    change ((k # P) - (1 # (2 * P))) with ((k # P) + (-1 # (2 * P))).
    pose proof (scaled_sq k P (-1)) as E. fold c in E.
    rewrite E. exact Hlow.
Qed.

Lemma Qsum_nonneg (xs : list Q) : Forall (fun x => 0 <= x) xs -> 0 <= Qsum xs.
Proof.
  induction 1 as [|x xs Hx _ IH]; simpl; lra.
Qed.

Lemma Qsq_nonneg (x : Q) : 0 <= Qsq x.
Proof.
  unfold Qsq, Qle, Qmult. cbn [Qnum Qden]. rewrite Z.mul_1_r.
  apply Z.square_nonneg.
Qed.

Lemma sum_sq_dev_nonneg (xs : list Q) : 0 <= sum_sq_dev xs.
Proof.
  unfold sum_sq_dev. apply Qsum_nonneg.
  apply Forall_forall. intros y Hy.
  apply in_map_iff in Hy as (x & <- & _). apply Qsq_nonneg.
Qed.

Lemma Qlen_ge (xs : list Q) (n : nat) :
  (n <= length xs)%nat -> Qnat n <= Qlen xs.
Proof.
  intro H. unfold Qnat, Qlen. rewrite <- Zle_Qle. lia.
Qed.

Lemma sample_variance_nonneg (xs : list Q) :
  (2 <= length xs)%nat -> 0 <= sample_variance xs.
Proof.
  intro H. unfold sample_variance.
  pose proof (sum_sq_dev_nonneg xs). pose proof (Qlen_ge xs 2 H) as L.
  change (Qnat 2) with 2 in L.
  apply Qle_shift_div_l; lra.
Qed.

Lemma sample_vs_population (xs : list Q) :
  (2 <= length xs)%nat ->
  sample_variance xs == population_variance xs * (Qlen xs / (Qlen xs - 1)).
Proof.
  intro H. unfold sample_variance, population_variance.
  pose proof (Qlen_ge xs 2 H) as L. change (Qnat 2) with 2 in L.
  field. split; lra.
Qed.

(** [Series.std()] followed by [.round(d)]: NaN on fewer than two values,
    the rounded root of the sample variance otherwise. *)
Lemma std_round_cases (d : nat) (xs : list Q) :
  ((length xs <= 1)%nat -> std_round d xs = None) /\
  ((2 <= length xs)%nat ->
   std_round d xs = Some (sqrt_round_nd d (sample_variance xs))).
Proof.
  unfold std_round, var_ddof.
  destruct (Nat.leb_spec (length xs) 1); split; intro; trivial; lia.
Qed.

Lemma metric_column_row (data : list SongRecord) (s : YearlyStat.t)
  (sel : YearlyStat.t -> Agg) (f : SongRecord -> Q) :
  In s (yearly_stats data) -> In (sel, f) metric_columns ->
  sel s = agg_round 3
            (col f (filter (fun r => (year r =? YearlyStat.year s)%Z) data)).
Proof.
  intros Hs Hc.
  destruct (yearly_stats_row data s Hs) as (_ & E1 & E2 & E3 & E4).
  simpl in Hc.
  destruct Hc as [E | [E | [E | [E | []]]]]; injection E as <- <-; trivial.
Qed.

(** C2, as the claim states it, fails: a year with a single record has no
    standard deviation (NaN, not 0), and for the two scores 1 and 3 of one
    year the table holds 1.414, not the population value 1. *)
Lemma yearly_std_counterexample :
  ~ (map (fun s => agg_std (YearlyStat.flesch_kincaid_score s))
         (yearly_stats [scored 2020 50]) = [Some 0]) /\
  ~ (map (fun s => agg_std (YearlyStat.flesch_kincaid_score s))
         (yearly_stats [scored 2020 1; scored 2020 3]) = [Some 1]).
Proof.
  split; intro H; vm_compute in H; discriminate H.
Qed.

(** C2, amended. For each of the four metrics, the per-year standard
    deviation is the sample standard deviation (squared deviations divided
    by one less than the number of records, pandas' default [ddof=1])
    rounded to 3 decimals; it exceeds the population variance by the
    factor n/(n-1).  For a year with exactly one record it is undefined
    (NaN). *)
Theorem yearly_std_is_sample_std (data : list SongRecord) (s : YearlyStat.t)
  (sel : YearlyStat.t -> Agg) (f : SongRecord -> Q) :
  In s (yearly_stats data) ->
  In (sel, f) metric_columns ->
  let xs := col f (filter (fun r => (year r =? YearlyStat.year s)%Z) data) in
  (1 <= length xs)%nat /\
  (length xs = 1%nat -> agg_std (sel s) = None) /\
  ((2 <= length xs)%nat ->
   exists r,
     agg_std (sel s) = Some r /\
     rounded_sqrt 3 (sample_variance xs) r /\
     sample_variance xs
     == population_variance xs * (Qlen xs / (Qlen xs - 1))).
Proof.
  intros Hs Hc. cbv zeta.
  rewrite (metric_column_row data s sel f Hs Hc). simpl agg_std.
  destruct (yearly_stats_row data s Hs) as (N & _).
  set (g := filter (fun r => (year r =? YearlyStat.year s)%Z) data) in *.
  destruct (std_round_cases 3 (col f g)) as [H1 H2].
  split; [| split].
  - unfold col. rewrite length_map. destruct g; [congruence | simpl; lia].
  - intro L. apply H1. lia.
  - intro L. rewrite (H2 L). eexists. split; [reflexivity |]. split.
    + apply sqrt_round_nd_spec. now apply sample_variance_nonneg.
    + now apply sample_vs_population.
Qed.

(** Year 2020 holds the scores 1 and 3, year 2021 a single record; the
    table holds 707/500 = 1.414 for 2020. *)
Lemma yearly_std_is_sample_std_witness :
  let data := [scored 2020 1; scored 2020 3; scored 2021 50] in
  map (fun s => agg_std (YearlyStat.flesch_kincaid_score s))
      (yearly_stats data) = [Some (707 # 500); None] /\
  rounded_sqrt 3 (sample_variance [1; 3]) (707 # 500) /\
  sample_variance [1; 3] == 2 /\ population_variance [1; 3] == 1.
Proof.
  cbv zeta. split; [reflexivity |].
  set (data := [scored 2020 1; scored 2020 3; scored 2021 50]).
  set (s := hd (YearlyStat.mk 0 (mkAgg None None None) (mkAgg None None None)
                  (mkAgg None None None) (mkAgg None None None) None)
               (yearly_stats data)).
  destruct (yearly_std_is_sample_std data s
              YearlyStat.flesch_kincaid_score flesch_kincaid_score)
    as (_ & _ & H).
  - left. reflexivity.
  - left. reflexivity.
  - destruct H as (r & Er & Hr & _).
    + simpl. lia.
    + vm_compute in Er. injection Er as <-.
      split; [exact Hr |]. split; reflexivity.
Defined.

(* ================================================================== *)
(** * Further properties of the pipeline *)

(** ** [generate_insights]: when it returns and what it returns *)

Lemma generate_insights_inv (data : list Categorized) (ins : Insights.t) :
  generate_insights data = inr ins ->
  exists i1 i2 i3 i4 t1 t2 t3 t4,
    idxmin (map fk data) = inr i1 /\ loc_title data i1 = inr t1 /\
    idxmax (map fk data) = inr i2 /\ loc_title data i2 = inr t2 /\
    idxmax (map (fun r => lexical_diversity (song r)) data) = inr i3 /\
    loc_title data i3 = inr t3 /\
    idxmax (map (fun r => unique_words (song r)) data) = inr i4 /\
    loc_title data i4 = inr t4 /\
    ins = Insights.mk (length data)
            (Zmin_list (map (fun r => year (song r)) data),
             Zmax_list (map (fun r => year (song r)) data))
            (trend_of data)
            (Insights.mkTop t1 t2 t3 t4)
            (rank_complexity_of data) (yearly_complexity_of data).
Proof.
  unfold generate_insights. intro H.
  destruct (idxmin (map fk data)) as [|i1] eqn:E1; [discriminate |].
  simpl in H.
  destruct (loc_title data i1) as [|t1] eqn:L1; [discriminate |].
  simpl in H.
  destruct (idxmax (map fk data)) as [|i2] eqn:E2; [discriminate |].
  simpl in H.
  destruct (loc_title data i2) as [|t2] eqn:L2; [discriminate |].
  simpl in H.
  destruct (idxmax (map (fun r => lexical_diversity (song r)) data))
    as [|i3] eqn:E3; [discriminate |].
  simpl in H.
  destruct (loc_title data i3) as [|t3] eqn:L3; [discriminate |].
  simpl in H.
  destruct (idxmax (map (fun r => unique_words (song r)) data))
    as [|i4] eqn:E4; [discriminate |].
  simpl in H.
  destruct (loc_title data i4) as [|t4] eqn:L4; [discriminate |].
  simpl in H. injection H as <-.
  exists i1, i2, i3, i4, t1, t2, t3, t4. auto 10.
Qed.

(** X1. [generate_insights] raises exactly on the empty table; on any
    other table it returns a summary whose count is the number of rows. *)
Theorem generate_insights_raises_iff_empty (data : list Categorized) :
  ((exists e, generate_insights data = inl e) <-> data = []) /\
  ((exists ins, generate_insights data = inr ins /\
                Insights.total_songs_analyzed ins = length data)
   <-> data <> []).
Proof.
  split; split.
  - intros (e & H). destruct data as [|r data]; trivial.
    destruct (generate_insights_some (r :: data)) as (ins & E & _);
      [discriminate | congruence].
  - intros ->. eexists. reflexivity.
  - intros (ins & H & _) ->. discriminate H.
  - intro N. destruct (generate_insights_some data N) as (ins & E & L & _).
    eauto.
Qed.

(** The running minimum: the index returned is that of the first
    occurrence of the least value. *)
Lemma arg_best_min (xs : list Q) :
  forall pre best besti,
    nth_error pre besti = Some best ->
    (forall x, In x pre -> best <= x) ->
    (forall j x, (j < besti)%nat -> nth_error pre j = Some x -> best < x) ->
    exists m,
      nth_error (pre ++ xs) (arg_best Qlt_bool best besti (length pre) xs)
      = Some m /\
      (forall x, In x (pre ++ xs) -> m <= x) /\
      (forall j x,
         (j < arg_best Qlt_bool best besti (length pre) xs)%nat ->
         nth_error (pre ++ xs) j = Some x -> m < x).
Proof.
  induction xs as [|x xs IH]; intros pre best besti Hb Hle Hlt; simpl.
  - rewrite app_nil_r. eauto.
  - assert (Hbi : (besti < length pre)%nat)
      by (apply nth_error_Some; congruence).
    replace (pre ++ x :: xs) with ((pre ++ [x]) ++ xs)
      by (now rewrite <- app_assoc).
    replace (S (length pre)) with (length (pre ++ [x]))
      by (rewrite length_app; simpl; lia).
    destruct (Qlt_bool x best) eqn:E.
    + apply Qlt_bool_iff in E. apply IH.
      * rewrite nth_error_app2, Nat.sub_diag; trivial.
      * intros y Hy. apply in_app_or in Hy as [Hy | [<- | []]].
        -- specialize (Hle y Hy). lra.
        -- lra.
      * intros j y Hj Hy. rewrite nth_error_app1 in Hy by exact Hj.
        apply nth_error_In in Hy. specialize (Hle y Hy). lra.
    + apply not_true_iff_false in E. rewrite Qlt_bool_iff in E.
      apply Qnot_lt_le in E. apply IH.
      * rewrite nth_error_app1; trivial.
      * intros y Hy. apply in_app_or in Hy as [Hy | [<- | []]]; auto.
      * intros j y Hj Hy. rewrite nth_error_app1 in Hy by lia. eauto.
Qed.

Lemma idxmin_spec (xs : list Q) (i : nat) :
  idxmin xs = inr i ->
  exists m,
    nth_error xs i = Some m /\
    (forall x, In x xs -> m <= x) /\
    (forall j x, (j < i)%nat -> nth_error xs j = Some x -> m < x).
Proof.
  destruct xs as [|x xs]; [discriminate |].
  unfold idxmin, ret. intros [= <-].
  apply (arg_best_min xs [x] x 0%nat).
  - reflexivity.
  - intros y [<- | []]. lra.
  - intros j y Hj. lia.
Qed.

Lemma arg_best_opp (xs : list Q) :
  forall best besti i,
    arg_best (fun a b => Qlt_bool b a) best besti i xs
    = arg_best Qlt_bool (- best) besti i (map Qopp xs).
Proof.
  induction xs as [|x xs IH]; intros best besti i; simpl; trivial.
  replace (Qlt_bool (- x) (- best)) with (Qlt_bool best x).
  - destruct (Qlt_bool best x); apply IH.
  - destruct (Qlt_bool best x) eqn:E1, (Qlt_bool (- x) (- best)) eqn:E2;
      trivial.
    + apply Qlt_bool_iff in E1. apply not_true_iff_false in E2.
      rewrite Qlt_bool_iff in E2. exfalso. apply E2. lra.
    + apply Qlt_bool_iff in E2. apply not_true_iff_false in E1.
      rewrite Qlt_bool_iff in E1. exfalso. apply E1. lra.
Qed.

Lemma idxmax_spec (xs : list Q) (i : nat) :
  idxmax xs = inr i ->
  exists m,
    nth_error xs i = Some m /\
    (forall x, In x xs -> x <= m) /\
    (forall j x, (j < i)%nat -> nth_error xs j = Some x -> x < m).
Proof.
  destruct xs as [|x xs]; [discriminate |].
  unfold idxmax, ret. intros [= <-].
  rewrite arg_best_opp.
  destruct (idxmin_spec (map Qopp (x :: xs))
              (arg_best Qlt_bool (- x) 0 1 (map Qopp xs)) eq_refl)
    as (m & Hm & Hle & Hlt).
  rewrite nth_error_map in Hm.
  destruct (nth_error (x :: xs) _) as [v|] eqn:Ev; [| discriminate].
  injection Hm as <-. exists v. split; [reflexivity |]. split.
  - intros y Hy. specialize (Hle (- y) (in_map Qopp _ _ Hy)). lra.
  - intros j y Hj Hy.
    specialize (Hlt j (- y) Hj). rewrite nth_error_map, Hy in Hlt.
    specialize (Hlt eq_refl). lra.
Qed.

Lemma loc_title_inv (data : list Categorized) (i : nat) (t : string) :
  loc_title data i = inr t ->
  exists r, nth_error data i = Some r /\ t = title (song r).
Proof.
  unfold loc_title. destruct (nth_error data i) as [r|]; [| discriminate].
  intros [= <-]. eauto.
Qed.

(** The row an extreme lookup points at, in terms of the table. *)
Lemma extreme_row (f : Categorized -> Q) (data : list Categorized)
  (i : nat) (m : Q) (t : string) :
  nth_error (map f data) i = Some m ->
  loc_title data i = inr t ->
  exists r, nth_error data i = Some r /\ t = title (song r) /\ f r = m.
Proof.
  intros Hm Ht. apply loc_title_inv in Ht as (r & Hr & ->).
  rewrite nth_error_map, Hr in Hm. injection Hm as <-. eauto.
Qed.

(** X2. The most complex song is the title of the first row that attains
    the least [flesch_kincaid_score]: no row scores lower, and every row
    before it scores strictly higher. *)
Theorem most_complex_song_first_minimum
  (data : list Categorized) (ins : Insights.t) :
  generate_insights data = inr ins ->
  exists i r,
    nth_error data i = Some r /\
    Insights.most_complex_song (Insights.top_metrics ins) = title (song r) /\
    (forall r', In r' data -> fk r <= fk r') /\
    (forall j r', (j < i)%nat -> nth_error data j = Some r' -> fk r < fk r').
Proof.
  intro H.
  apply generate_insights_inv in H
    as (i1 & i2 & i3 & i4 & t1 & t2 & t3 & t4
        & E1 & L1 & _ & _ & _ & _ & _ & _ & ->).
  destruct (idxmin_spec _ _ E1) as (m & Hm & Hle & Hlt).
  destruct (extreme_row fk data i1 m t1 Hm L1) as (r & Hr & -> & <-).
  exists i1, r. repeat split; trivial.
  - intros r' Hr'. apply Hle. now apply in_map.
  - intros j r' Hj Hr'. apply (Hlt j); trivial.
    now rewrite nth_error_map, Hr'.
Qed.

Lemma most_complex_song_first_minimum_witness :
  exists ins i r,
    generate_insights three_songs = inr ins /\
    nth_error three_songs i = Some r /\
    Insights.most_complex_song (Insights.top_metrics ins) = title (song r) /\
    (forall r', In r' three_songs -> fk r <= fk r').
Proof.
  let v := eval vm_compute in (generate_insights three_songs) in
  match v with
  | inr ?ins =>
      destruct (most_complex_song_first_minimum three_songs ins eq_refl)
        as (i & r & Hr & E & Hle & _);
      exists ins, i, r
  end.
  repeat split; trivial.
Defined.

Lemma first_max_row_intro (f : Categorized -> Q) (data : list Categorized)
  (i : nat) (t : string) :
  idxmax (map f data) = inr i -> loc_title data i = inr t ->
  first_max_row f data t.
Proof.
  intros E L. destruct (idxmax_spec _ _ E) as (m & Hm & Hle & Hlt).
  destruct (extreme_row f data i m t Hm L) as (r & Hr & -> & <-).
  exists i, r. repeat split; trivial.
  - intros r' Hr'. apply Hle. now apply in_map.
  - intros j r' Hj Hr'. apply (Hlt j); trivial.
    now rewrite nth_error_map, Hr'.
Qed.

(** X3. The least complex song, the song of highest lexical diversity and
    the song with most unique words are each the first row attaining the
    greatest value of their column. *)
Theorem top_metrics_first_maximum
  (data : list Categorized) (ins : Insights.t) :
  generate_insights data = inr ins ->
  let top := Insights.top_metrics ins in
  first_max_row fk data (Insights.least_complex_song top) /\
  first_max_row (fun r => lexical_diversity (song r)) data
    (Insights.highest_lexical_diversity top) /\
  first_max_row (fun r => unique_words (song r)) data
    (Insights.most_unique_words top).
Proof.
  intro H.
  apply generate_insights_inv in H
    as (i1 & i2 & i3 & i4 & t1 & t2 & t3 & t4
        & _ & _ & E2 & L2 & E3 & L3 & E4 & L4 & ->).
  cbv zeta. simpl.
  split; [| split]; eapply first_max_row_intro; eassumption.
Qed.

Lemma top_metrics_first_maximum_witness :
  exists ins,
    generate_insights three_songs = inr ins /\
    first_max_row fk three_songs
      (Insights.least_complex_song (Insights.top_metrics ins)) /\
    Insights.least_complex_song (Insights.top_metrics ins) = "B"%string.
Proof.
  let v := eval vm_compute in (generate_insights three_songs) in
  match v with
  | inr ?ins =>
      destruct (top_metrics_first_maximum three_songs ins eq_refl)
        as (H & _ & _);
      exists ins
  end.
  repeat split; trivial.
Defined.

Lemma filter_nil_iff {A} (p : A -> bool) (l : list A) :
  filter p l = [] <-> forall a, In a l -> p a = false.
Proof.
  split.
  - intros E a Ha. destruct (p a) eqn:P; trivial.
    assert (In a (filter p l)) by (apply filter_In; auto).
    rewrite E in H. destruct H.
  - apply filter_none.
Qed.

Lemma trend_of_none_iff (data : list Categorized) :
  trend_of data = None <->
  filter (fun r => (2020 <=? year (song r))%Z) data = [] \/
  filter (fun r => (year (song r) <? 2020)%Z) data = [].
Proof.
  unfold trend_of.
  set (recent := filter (fun r => (2020 <=? year (song r))%Z) data).
  set (older := filter (fun r => (year (song r) <? 2020)%Z) data).
  destruct recent as [|a recent]; [simpl; tauto |].
  destruct older as [|b older]; [simpl; tauto |].
  simpl. split; [discriminate | intros [H | H]; discriminate H].
Qed.

(** X4. The summary has no trend entry exactly when all rows lie on one
    side of the split: all before 2020, or all in 2020 or later. *)
Theorem trend_entry_absent_iff (data : list Categorized) (ins : Insights.t) :
  generate_insights data = inr ins ->
  (Insights.complexity_trend ins = None <->
   (forall r, In r data -> (year (song r) < 2020)%Z) \/
   (forall r, In r data -> (2020 <= year (song r))%Z)).
Proof.
  intro H.
  apply generate_insights_inv in H
    as (i1 & i2 & i3 & i4 & t1 & t2 & t3 & t4
        & _ & _ & _ & _ & _ & _ & _ & _ & ->).
  simpl. rewrite trend_of_none_iff, !filter_nil_iff.
  split; intros [H | H]; [left | right | left | right]; intros r Hr;
    specialize (H r Hr); simpl in H; lia.
Qed.

Lemma trend_entry_absent_iff_witness :
  exists ins,
    generate_insights [row_in 2021 50; row_in 2022 60] = inr ins /\
    Insights.complexity_trend ins = None.
Proof.
  let v := eval vm_compute in
             (generate_insights [row_in 2021 50; row_in 2022 60]) in
  match v with
  | inr ?ins =>
      pose proof (proj2 (trend_entry_absent_iff
                           [row_in 2021 50; row_in 2022 60] ins eq_refl))
        as H;
      exists ins
  end.
  split; [reflexivity |]. apply H. right.
  intros r [<- | [<- | []]]; simpl; lia.
Defined.

Lemma round_half_even_lower (a : Z) (q : Q) :
  inject_Z a <= q -> (a <= round_half_even q)%Z.
Proof.
  intro H.
  apply (round_half_even_between a (Qfloor q + 1) q H).
  apply Qlt_le_weak, Qlt_floor.
Qed.

Lemma round_half_even_upper (b : Z) (q : Q) :
  q <= inject_Z b -> (round_half_even q <= b)%Z.
Proof.
  intro H.
  apply (round_half_even_between (Qfloor q) b q); trivial.
  apply Qfloor_le.
Qed.

Lemma pow10_pos (d : nat) : 0 < inject_Z (Zpos (pow10 d)).
Proof.
  unfold Qlt; simpl; lia.
Qed.

(** Rounding to decimals never crosses an integer. *)
Lemma round_nd_lower (d : nat) (a : Z) (q : Q) :
  inject_Z a <= q -> inject_Z a <= round_nd d q.
Proof.
  intro H. unfold round_nd. rewrite Qred_correct.
  pose proof (pow10_pos d) as HP. set (P := pow10 d) in *.
  assert (L : (a * Zpos P <= round_half_even (q * inject_Z (Zpos P)))%Z).
  { apply round_half_even_lower. rewrite inject_Z_mult. nra. }
  unfold Qle. cbn [Qnum Qden inject_Z]. lia.
Qed.

Lemma round_nd_upper (d : nat) (b : Z) (q : Q) :
  q <= inject_Z b -> round_nd d q <= inject_Z b.
Proof.
  intro H. unfold round_nd. rewrite Qred_correct.
  pose proof (pow10_pos d) as HP. set (P := pow10 d) in *.
  assert (L : (round_half_even (q * inject_Z (Zpos P)) <= b * Zpos P)%Z).
  { apply round_half_even_upper. rewrite inject_Z_mult. nra. }
  unfold Qle. cbn [Qnum Qden inject_Z]. lia.
Qed.

Lemma trend_of_some (data : list Categorized) (t : Insights.trend_t) :
  trend_of data = Some t ->
  exists c,
    Insights.change t = round_nd 2 c /\
    Insights.trend t
    = (if Qlt_bool 0 c then "Simpler" else "More Complex")%string.
Proof.
  unfold trend_of.
  destruct (_ && _)%bool; [| discriminate].
  destruct (mean _) as [a|]; [| discriminate].
  destruct (mean _) as [b|]; [| discriminate].
  intros [= <-]. simpl. eauto.
Qed.

(** X5. The printed change never contradicts the printed direction: under
    "Simpler" the rounded change is not negative, under "More Complex" it
    is not positive, and the direction is one of the two. *)
Theorem trend_label_matches_change
  (data : list Categorized) (ins : Insights.t) (t : Insights.trend_t) :
  generate_insights data = inr ins ->
  Insights.complexity_trend ins = Some t ->
  (Insights.trend t = "Simpler"%string /\ 0 <= Insights.change t) \/
  (Insights.trend t = "More Complex"%string /\ Insights.change t <= 0).
Proof.
  intros H T.
  apply generate_insights_inv in H
    as (i1 & i2 & i3 & i4 & t1 & t2 & t3 & t4
        & _ & _ & _ & _ & _ & _ & _ & _ & ->).
  simpl in T. apply trend_of_some in T as (c & -> & ->).
  destruct (Qlt_bool 0 c) eqn:E.
  - left. split; trivial. apply Qlt_bool_iff in E.
    apply (round_nd_lower 2 0). apply Qlt_le_weak. exact E.
  - right. split; trivial. apply not_true_iff_false in E.
    rewrite Qlt_bool_iff in E. apply Qnot_lt_le in E.
    apply (round_nd_upper 2 0). exact E.
Qed.

(** A change of 0.004 prints as 0 under the direction "Simpler". *)
Lemma trend_label_matches_change_witness :
  exists ins t,
    generate_insights [row_in 2019 50; row_in 2021 (50004 # 1000)] = inr ins /\
    Insights.complexity_trend ins = Some t /\
    Insights.trend t = "Simpler"%string /\ Insights.change t == 0.
Proof.
  let v := eval vm_compute in
             (generate_insights [row_in 2019 50; row_in 2021 (50004 # 1000)]) in
  match v with
  | inr ?ins =>
      match eval vm_compute in (Insights.complexity_trend ins) with
      | Some ?t =>
          pose proof (trend_label_matches_change
                        [row_in 2019 50; row_in 2021 (50004 # 1000)] ins t
                        eq_refl eq_refl) as H;
          exists ins, t
      end
  end.
  split; [reflexivity |]. split; [reflexivity |].
  destruct H as [[H1 H2] | [H1 H2]].
  - split; [exact H1 | reflexivity].
  - discriminate H1.
Defined.

(** ** The quality gate on what the transformer writes *)

Lemma clean_data_has_lyrics (csv : list SongRecord) :
  Forall (fun r => has_lyrics r = true) (clean_data csv).
Proof.
  apply Forall_forall. intros r H. unfold clean_data in H.
  apply filter_In in H as [H _]. now apply filter_In in H as [_ H].
Qed.

Lemma sum_lyrics_found_all (df : list Categorized) :
  Forall (fun r => has_lyrics (song r) = true) df ->
  sum_lyrics_found df = length df.
Proof.
  unfold sum_lyrics_found.
  induction 1 as [|r df Hr _ IH]; simpl; trivial.
  rewrite Hr. simpl. now rewrite IH.
Qed.

(** X6. The gate never lets the transformer's own output through: the
    table written by [calculate_additional_metrics] after [clean_data]
    holds only rows with lyrics, so the gate reports insufficient data
    under 100 rows and too many missing lyrics from 100 rows on. *)
Theorem quality_gate_rejects_transformer_output
  (csv : list SongRecord) (mtime : Z) :
  let out := transformed_data (calculate_additional_metrics (clean_data csv)) in
  data_quality_check [(mtime, out)] =
  if (length out <? 100)%nat
  then inl (Exception "Insufficient data" [length out])
  else inl (Exception "Too many missing lyrics" [length out; length out]).
Proof.
  cbv zeta. simpl transformed_data.
  set (out := map categorize (clean_data csv)).
  assert (F : sum_lyrics_found out = length out).
  { apply sum_lyrics_found_all. unfold out.
    apply Forall_forall. intros r Hr.
    apply in_map_iff in Hr as (r0 & <- & Hr0). simpl.
    pose proof (clean_data_has_lyrics csv) as HF.
    rewrite Forall_forall in HF. now apply HF. }
  unfold data_quality_check, quality_checks. simpl. rewrite F.
  destruct (Nat.ltb_spec (length out) 100); trivial.
  destruct (Nat.ltb_spec (length out) (length out + (length out + 0)));
    trivial.
  lia.
Qed.

(** ** [clean_data] on batches *)

Lemma filter_all {A} (p : A -> bool) (l : list A) :
  Forall (fun a => p a = true) l -> filter p l = l.
Proof.
  induction 1 as [|a l Ha _ IH]; simpl; trivial.
  now rewrite Ha, IH.
Qed.

Lemma clean_data_in_range (csv : list SongRecord) :
  Forall (fun r => in_score_range r = true) (clean_data csv).
Proof.
  apply Forall_forall. intros r H. unfold clean_data in H.
  now apply filter_In in H as [_ H].
Qed.

(** X7. Cleaning works row by row: cleaning two batches and joining them
    is cleaning the joined batch, cleaning twice changes nothing more,
    and cleaning never adds a row. *)
Theorem clean_data_batches (a b : list SongRecord) :
  clean_data (a ++ b) = clean_data a ++ clean_data b /\
  clean_data (clean_data a) = clean_data a /\
  (length (clean_data a) <= length a)%nat.
Proof.
  unfold clean_data. split; [| split].
  - now rewrite !filter_app.
  - fold (clean_data a).
    rewrite (filter_all has_lyrics _ (clean_data_has_lyrics a)).
    apply filter_all, clean_data_in_range.
  - etransitivity; apply filter_length_le.
Qed.

(** ** [generate_summary_report] *)

Lemma loc_artist_some (data : list Categorized) (i : nat) :
  (i < length data)%nat -> exists t, loc_artist data i = inr t.
Proof.
  intro H. unfold loc_artist.
  destruct (nth_error data i) eqn:E.
  - eexists; reflexivity.
  - apply nth_error_None in E. lia.
Qed.

Lemma generate_summary_report_some (now : string)
  (f : Z * list Categorized) (files : list (Z * list Categorized)) :
  snd (latest f files) <> [] ->
  exists s,
    generate_summary_report now (f :: files) = inr s /\
    Summary.total_songs_analyzed s = length (snd (latest f files)) /\
    Summary.complexity_trend s = summary_trend (snd (latest f files)).
Proof.
  intro N. unfold generate_summary_report.
  set (df := snd (latest f files)) in *.
  assert (Hm : map fk df <> []).
  { intro E. apply map_eq_nil in E. contradiction. }
  destruct (idxmin_some _ Hm) as (i1 & E1 & L1).
  destruct (idxmax_some _ Hm) as (i3 & E3 & L3).
  rewrite length_map in *.
  destruct (loc_title_some df i1 L1) as (a1 & A1).
  destruct (loc_artist_some df i1 L1) as (a2 & A2).
  destruct (loc_title_some df i3 L3) as (a3 & A3).
  destruct (loc_artist_some df i3 L3) as (a4 & A4).
  rewrite E1. simpl. rewrite A1. simpl. rewrite A2. simpl.
  rewrite E3. simpl. rewrite A3. simpl. rewrite A4. simpl.
  eexists. repeat split.
Qed.

(** X8. The report fails exactly when there is no transformed file or the
    latest one has no rows; otherwise it returns a summary counting the
    rows of the latest file. *)
Theorem generate_summary_report_raises_iff (now : string)
  (transformed_files : list (Z * list Categorized)) :
  ((exists e, generate_summary_report now transformed_files = inl e) <->
   match transformed_files with
   | [] => True
   | f :: files => snd (latest f files) = []
   end) /\
  (forall f files,
     transformed_files = f :: files -> snd (latest f files) <> [] ->
     exists s,
       generate_summary_report now transformed_files = inr s /\
       Summary.total_songs_analyzed s = length (snd (latest f files))).
Proof.
  split.
  - destruct transformed_files as [|f files].
    + split; trivial. intros _. eexists. reflexivity.
    + split.
      * intros (e & H).
        destruct (snd (latest f files)) as [|r df] eqn:E; trivial.
        destruct (generate_summary_report_some now f files)
          as (s & Hs & _); [rewrite E; discriminate | congruence].
      * intro E. unfold generate_summary_report. rewrite E.
        eexists. reflexivity.
  - intros f files -> N.
    destruct (generate_summary_report_some now f files N) as (s & Hs & L & _).
    eauto.
Qed.

Lemma generate_summary_report_raises_iff_witness :
  exists s,
    generate_summary_report "2024-01-07 02:00:00"
      [(1%Z, [row_in 2019 50]); (5%Z, three_songs); (3%Z, [])] = inr s /\
    Summary.total_songs_analyzed s = 3%nat.
Proof.
  destruct (generate_summary_report_raises_iff "2024-01-07 02:00:00"
              [(1%Z, [row_in 2019 50]); (5%Z, three_songs); (3%Z, [])])
    as (_ & H).
  apply (H _ _ eq_refl). discriminate.
Defined.







(** ** The yearly and the decade table *)

Lemma sorted_lt_NoDup (ks : list Z) : StronglySorted Z.lt ks -> NoDup ks.
Proof.
  induction 1 as [|k ks _ IH F]; constructor; trivial.
  intro H. rewrite Forall_forall in F. specialize (F k H). lia.
Qed.

Lemma groupby_length {A} (key : A -> Z) (rows : list A) :
  length (groupby key rows) = length (nodup Z.eq_dec (map key rows)).
Proof.
  rewrite <- (length_map fst). apply Permutation_length.
  apply NoDup_Permutation.
  - apply sorted_lt_NoDup, (groupby_ok key rows).
  - apply NoDup_nodup.
  - intro k. rewrite nodup_In. apply groupby_keys.
Qed.

Lemma nodup_length_le {A} (dec : forall x y : A, {x = y} + {x <> y})
  (l : list A) : (length (nodup dec l) <= length l)%nat.
Proof.
  induction l as [|a l IH]; simpl; trivial.
  destruct (in_dec dec a l); simpl; lia.
Qed.

Lemma yearly_stats_length (data : list SongRecord) :
  length (yearly_stats data) = length (groupby year data).
Proof.
  rewrite <- (length_map YearlyStat.year), <- (length_map fst).
  f_equal. apply yearly_stats_columns.
Qed.

(** X10. The yearly table has exactly one row per distinct year of the
    song table, so never more rows than songs, and none for an empty
    table. *)
Theorem yearly_stats_one_row_per_year (data : list SongRecord) :
  length (yearly_stats data) = length (nodup Z.eq_dec (map year data)) /\
  NoDup (map YearlyStat.year (yearly_stats data)) /\
  (length (yearly_stats data) <= length data)%nat /\
  (yearly_stats data = [] <-> data = []).
Proof.
  assert (L : length (yearly_stats data)
              = length (nodup Z.eq_dec (map year data))).
  { rewrite yearly_stats_length. apply groupby_length. }
  assert (B : (length (yearly_stats data) <= length data)%nat).
  { rewrite L. rewrite <- (length_map year data). apply nodup_length_le. }
  split; [exact L |]. split; [| split; [exact B |]].
  - destruct (yearly_stats_columns data) as (-> & _).
    apply sorted_lt_NoDup, (groupby_ok year data).
  - split.
    + intro E. destruct data as [|r data]; trivial.
      exfalso.
      assert (In (year r) (map fst (groupby year (r :: data))))
        by (apply groupby_keys; now left).
      destruct (yearly_stats_columns (r :: data)) as (Ey & _).
      rewrite <- Ey, E in H. destruct H.
    + intros ->. reflexivity.
Qed.

Lemma Qsum_between (lo hi : Q) (xs : list Q) :
  Forall (fun x => lo <= x /\ x <= hi) xs ->
  lo * Qlen xs <= Qsum xs /\ Qsum xs <= hi * Qlen xs.
Proof.
  unfold Qlen. induction 1 as [|x xs [L U] _ [IL IU]]; simpl Qsum.
  - change (inject_Z (Z.of_nat (@length Q []))) with 0. split; lra.
  - replace (Z.of_nat (length (x :: xs))) with (Z.of_nat (length xs) + 1)%Z
      by (simpl length; lia).
    rewrite inject_Z_plus. change (inject_Z 1) with 1. split; lra.
Qed.

(** A mean lies between any bounds of the values. *)
Lemma mean_between (lo hi : Q) (xs : list Q) :
  xs <> [] -> Forall (fun x => lo <= x /\ x <= hi) xs ->
  exists m, mean xs = Some m /\ lo <= m /\ m <= hi.
Proof.
  intros N F. rewrite (mean_some xs N). eexists. split; [reflexivity |].
  rewrite Qred_correct.
  destruct (Qsum_between lo hi xs F) as [L U].
  assert (P : 0 < Qlen xs).
  { pose proof (Qlen_ge xs 1) as G. change (Qnat 1) with 1 in G.
    destruct xs; [congruence |]. specialize (G ltac:(simpl; lia)). lra. }
  split.
  - apply Qle_shift_div_l; trivial.
  - apply Qle_shift_div_r; trivial.
Qed.

Lemma insert_sorted_In (x y : Q) (l : list Q) :
  In y (insert_sorted x l) <-> y = x \/ In y l.
Proof.
  induction l as [|z l IH]; simpl.
  - intuition.
  - destruct (Qle_bool x z); simpl; rewrite ?IH; intuition.
Qed.

Lemma insert_sorted_length (x : Q) (l : list Q) :
  length (insert_sorted x l) = S (length l).
Proof.
  induction l as [|z l IH]; simpl; trivial.
  destruct (Qle_bool x z); simpl; auto.
Qed.

Lemma sort_values_In (y : Q) (xs : list Q) :
  In y (sort_values xs) <-> In y xs.
Proof.
  induction xs as [|x xs IH]; simpl; [tauto |].
  rewrite insert_sorted_In, IH. intuition.
Qed.

Lemma sort_values_length (xs : list Q) :
  length (sort_values xs) = length xs.
Proof.
  induction xs as [|x xs IH]; simpl; trivial.
  now rewrite insert_sorted_length, IH.
Qed.

(** A median lies between any bounds of the values. *)
Lemma median_between (lo hi : Q) (xs : list Q) :
  xs <> [] -> Forall (fun x => lo <= x /\ x <= hi) xs ->
  exists m, median xs = Some m /\ lo <= m /\ m <= hi.
Proof.
  intros N F.
  assert (B : forall i, (i < length xs)%nat ->
                   lo <= nth i (sort_values xs) 0 /\
                   nth i (sort_values xs) 0 <= hi).
  { intros i Hi. rewrite Forall_forall in F. apply F.
    apply sort_values_In. apply nth_In. now rewrite sort_values_length. }
  assert (P : (0 < length xs)%nat) by (destruct xs; [congruence | simpl; lia]).
  assert (H2 : (length xs / 2 < length xs)%nat)
    by (apply Nat.div_lt; lia).
  unfold median. destruct xs as [|x xs]; [congruence |].
  remember (x :: xs) as l eqn:El. clear El.
  destruct (Nat.even (length l)).
  - match goal with
    | |- exists m, Some ?v = Some m /\ _ => exists v
    end.
    split; [reflexivity |]. rewrite Qred_correct.
    destruct (B (length l / 2)%nat H2) as [L1 U1].
    destruct (B (length l / 2 - 1)%nat ltac:(lia)) as [L2 U2].
    split.
    + apply Qle_shift_div_l; lra.
    + apply Qle_shift_div_r; lra.
  - eexists. split; [reflexivity |]. now apply B.
Qed.

Lemma diff_from_bounded (lo hi : Q) (xs : list (option Q)) :
  forall prev,
    Forall (fun o => exists m, o = Some m /\ lo <= m /\ m <= hi) xs ->
    (forall p, prev = Some p -> lo <= p /\ p <= hi) ->
    Forall (fun o => forall t, o = Some t ->
                       lo - hi <= t /\ t <= hi - lo)
           (diff_from prev xs).
Proof.
  induction xs as [|x xs IH]; intros prev F Hp; cbn [diff_from]; constructor.
  - inversion F as [|? ? (m & -> & L & U) _]; subst.
    intros t Ht. destruct prev as [p|]; [| discriminate].
    destruct (Hp p eq_refl) as [Lp Up]. cbn [Qsub_opt] in Ht.
    replace t with (Qred (m - p)) by congruence.
    rewrite Qred_correct. split; lra.
  - inversion F as [|? ? (m & -> & L & U) F']; subst.
    apply IH; trivial. intros p [= <-]. auto.
Qed.

Lemma clean_data_scores (csv : list SongRecord) (r : SongRecord) :
  In r (clean_data csv) ->
  -50 <= flesch_kincaid_score r /\ flesch_kincaid_score r <= 100.
Proof.
  intro H. pose proof (clean_data_in_range csv) as F.
  rewrite Forall_forall in F. specialize (F r H).
  unfold in_score_range in F. now apply between_iff in F.
Qed.

Lemma cleaned_year_scores (csv : list SongRecord) (y : Z) :
  Forall (fun x => -50 <= x /\ x <= 100)
         (col flesch_kincaid_score
            (filter (fun r => (year r =? y)%Z) (clean_data csv))).
Proof.
  apply Forall_forall. intros x Hx. unfold col in Hx.
  apply in_map_iff in Hx as (r & <- & Hr). apply filter_In in Hr as [Hr _].
  now apply (clean_data_scores csv).
Qed.

Lemma cleaned_fk_mean (csv : list SongRecord) (s : YearlyStat.t) :
  In s (yearly_stats (clean_data csv)) ->
  exists m, fk_mean s = Some m /\ -50 <= m /\ m <= 100.
Proof.
  intro Hs.
  destruct (yearly_stats_row _ s Hs) as (N & E & _).
  unfold fk_mean. rewrite E. simpl agg_mean.
  destruct (mean_between (-50) 100 _ (col_nonempty flesch_kincaid_score _ N)
              (cleaned_year_scores csv _)) as (m & -> & L & U).
  simpl. eexists. split; [reflexivity |]. split.
  - now apply (round_nd_lower 3 (-50)).
  - now apply (round_nd_upper 3 100).
Qed.

(** X11. After cleaning, every year's mean and median score lie in the
    interval [[-50, 100]] the cleaner enforces on single scores, rounding
    included, and every year-over-year trend lies in [[-150, 150]]. *)
Theorem cleaned_yearly_stats_in_range
  (csv : list SongRecord) (s : YearlyStat.t) :
  In s (yearly_stats (clean_data csv)) ->
  let a := YearlyStat.flesch_kincaid_score s in
  (exists m, agg_mean a = Some m /\ -50 <= m /\ m <= 100) /\
  (exists m, agg_median a = Some m /\ -50 <= m /\ m <= 100) /\
  (forall t, YearlyStat.complexity_trend s = Some t ->
             -150 <= t /\ t <= 150).
Proof.
  intro Hs. cbv zeta. split; [| split].
  - apply (cleaned_fk_mean csv s Hs).
  - destruct (yearly_stats_row _ s Hs) as (N & E & _).
    rewrite E. simpl agg_median.
    destruct (median_between (-50) 100 _
                (col_nonempty flesch_kincaid_score _ N)
                (cleaned_year_scores csv _)) as (m & -> & L & U).
    simpl. eexists. split; [reflexivity |]. split.
    + now apply (round_nd_lower 3 (-50)).
    + now apply (round_nd_upper 3 100).
  - intros t Ht.
    destruct (yearly_stats_columns (clean_data csv)) as (_ & Et & _).
    assert (F : Forall (fun o => forall t, o = Some t ->
                                   -50 - 100 <= t /\ t <= 100 - -50)
                       (map YearlyStat.complexity_trend
                          (yearly_stats (clean_data csv)))).
    { rewrite Et. apply diff_from_bounded; [| discriminate].
      apply Forall_forall. intros o Ho.
      apply in_map_iff in Ho as (s' & <- & Hs').
      apply (cleaned_fk_mean csv s' Hs'). }
    rewrite Forall_forall in F.
    destruct (F _ (in_map YearlyStat.complexity_trend _ _ Hs) t Ht) as [L U].
    split; lra.
Qed.

(** Consecutive years at opposite ends of the range reach both bounds of
    the trend. *)
Lemma cleaned_yearly_stats_in_range_witness :
  map YearlyStat.complexity_trend (yearly_stats (clean_data extreme_batch))
  = [None; Some (-150); Some 150] /\
  Forall (fun s => forall t, YearlyStat.complexity_trend s = Some t ->
                             -150 <= t /\ t <= 150)
         (yearly_stats (clean_data extreme_batch)).
Proof.
  split; [reflexivity |].
  apply Forall_forall. intros s Hs.
  apply (cleaned_yearly_stats_in_range extreme_batch s Hs).
Defined.

Lemma decade_of_bucket (k y : Z) :
  (k mod 10 = 0)%Z ->
  (y / 10 * 10 =? k)%Z = ((k <=? y) && (y <? k + 10))%Z%bool.
Proof.
  intro Hk.
  pose proof (Z.div_mod y 10 ltac:(lia)).
  pose proof (Z.mod_pos_bound y 10 ltac:(lia)).
  pose proof (Z.div_mod k 10 ltac:(lia)).
  destruct (Z.eqb_spec (y / 10 * 10) k), (Z.leb_spec k y), (Z.ltb_spec y (k + 10));
    simpl; trivial; lia.
Qed.

Lemma decade_of_mod (r : SongRecord) : (decade_of r mod 10 = 0)%Z.
Proof.
  unfold decade_of. apply Z_mod_mult.
Qed.

(** X12. The decade table lists the decades in ascending order; each is a
    multiple of ten with at least one song in its ten years, its three
    means are taken over exactly the songs of those ten years, and every
    song falls in one listed decade. *)
Theorem decade_stats_buckets (data : list SongRecord) :
  StronglySorted Z.lt (map DecadeStat.decade (decade_stats data)) /\
  (forall s, In s (decade_stats data) ->
     let d := DecadeStat.decade s in
     let g := filter (fun r => ((d <=? year r) && (year r <? d + 10))%Z%bool)
                     data in
     (d mod 10 = 0)%Z /\ g <> [] /\
     DecadeStat.flesch_kincaid_score s
       = option_map (round_nd 3) (mean (col flesch_kincaid_score g)) /\
     DecadeStat.lexical_diversity s
       = option_map (round_nd 3) (mean (col lexical_diversity g)) /\
     DecadeStat.unique_words s
       = option_map (round_nd 3) (mean (col unique_words g))) /\
  (forall r, In r data ->
     exists s, In s (decade_stats data) /\
               (DecadeStat.decade s <= year r < DecadeStat.decade s + 10)%Z).
Proof.
  unfold decade_stats. split; [| split].
  - rewrite map_map. simpl. apply (groupby_ok decade_of data).
  - intros s Hs. apply in_map_iff in Hs as ([k g] & <- & H).
    cbv zeta. simpl.
    apply groupby_group in H as [Eg N].
    assert (Hk : (k mod 10 = 0)%Z).
    { destruct g as [|r g]; [congruence |].
      assert (Hr : In r (filter (fun a => (decade_of a =? k)%Z) data))
        by (rewrite <- Eg; now left).
      apply filter_In in Hr as [_ Hr]. apply Z.eqb_eq in Hr. subst k.
      apply decade_of_mod. }
    assert (Ef : filter (fun r => ((k <=? year r) && (year r <? k + 10))%Z%bool)
                        data = g).
    { rewrite Eg. apply filter_ext. intro r. symmetry.
      now apply decade_of_bucket. }
    rewrite Ef. auto.
  - intros r Hr.
    assert (Hk : In (decade_of r) (map fst (groupby decade_of data)))
      by (apply groupby_keys; now apply in_map).
    apply in_map_iff in Hk as ([k g] & Ek & Hin). simpl in Ek. subst k.
    eexists. split.
    + apply in_map_iff. eexists. split; [reflexivity | exact Hin].
    + simpl. unfold decade_of.
      pose proof (Z.div_mod (year r) 10 ltac:(lia)).
      pose proof (Z.mod_pos_bound (year r) 10 ltac:(lia)). lia.
Qed.

(** ** Words and sentences of a lyric text *)

Lemma chars_of_list (l : list ascii) : chars (string_of_list_ascii l) = l.
Proof.
  apply list_ascii_of_string_of_list_ascii.
Qed.

Lemma flush_spec (acc : list ascii) :
  flat_map (fun w => chars w) (flush acc) = rev acc /\
  Forall (fun w => w <> ""%string /\
                   forall c, In c (chars w) -> In c acc) (flush acc).
Proof.
  destruct acc as [|a acc]; [split; [reflexivity | constructor] |].
  unfold flush. split.
  - cbn [flat_map]. now rewrite chars_of_list, app_nil_r.
  - constructor; [| constructor]. split.
    + intro E. apply (f_equal (fun w => chars w)) in E.
      rewrite chars_of_list in E. simpl in E.
      destruct (rev acc); discriminate.
    + intros c Hc. rewrite chars_of_list in Hc. now apply in_rev.
Qed.

Lemma split_ws_aux_spec (s : string) :
  forall acc,
    (forall c, In c acc -> is_space c = false) ->
    flat_map (fun w => chars w) (split_ws_aux acc s)
    = rev acc ++ filter (fun c => negb (is_space c)) (chars s) /\
    Forall (fun w => w <> ""%string /\
                     forall c, In c (chars w) -> is_space c = false)
           (split_ws_aux acc s).
Proof.
  induction s as [|c s IH]; intros acc Hacc; cbn [split_ws_aux].
  - destruct (flush_spec acc) as [E F]. split.
    + simpl. now rewrite app_nil_r.
    + eapply Forall_impl; [| exact F]. intros w [N H]. auto.
  - destruct (is_space c) eqn:Ec.
    + destruct (flush_spec acc) as [E F].
      destruct (IH [] ltac:(intros ? [])) as [E' F']. split.
      * rewrite flat_map_app, E, E'. simpl. now rewrite Ec.
      * apply Forall_app. split; trivial.
        eapply Forall_impl; [| exact F]. intros w [N H]. auto.
    + destruct (IH (c :: acc)) as [E' F'].
      { intros x [<- | Hx]; auto. }
      split; trivial.
      rewrite E'. simpl. rewrite Ec. simpl. now rewrite <- app_assoc.
Qed.

Lemma split_ws_aux_nil (s : string) :
  forall acc,
    split_ws_aux acc s = [] <->
    acc = [] /\ forallb is_space (chars s) = true.
Proof.
  induction s as [|c s IH]; intro acc; cbn [split_ws_aux].
  - destruct acc; simpl; intuition; discriminate.
  - simpl. destruct (is_space c); simpl.
    + split.
      * intro E. apply app_eq_nil in E as [E1 E2].
        apply IH in E2 as [_ E2]. destruct acc; [auto | discriminate].
      * intros [-> E]. simpl. apply IH. auto.
    + rewrite IH. split; [intros [E _]; discriminate | intros [_ E];
                          discriminate].
Qed.

(** X13. [str.split()] as the metrics use it: every word is non-empty and
    free of whitespace, the words joined together are the text with its
    whitespace removed, and there is no word exactly when the text is
    blank. *)
Theorem split_ws_words (s : string) :
  Forall (fun w => w <> ""%string /\
                   forall c, In c (chars w) -> is_space c = false)
         (split_ws s) /\
  flat_map (fun w => chars w) (split_ws s)
  = filter (fun c => negb (is_space c)) (chars s) /\
  (split_ws s = [] <-> forallb is_space (chars s) = true).
Proof.
  destruct (split_ws_aux_spec s [] ltac:(intros ? [])) as [E F].
  split; [exact F |]. split; [exact E |].
  unfold split_ws. rewrite split_ws_aux_nil. intuition.
Qed.

Lemma split_ws_aux_app (a b : string) (c : ascii) :
  is_space c = true ->
  forall acc,
    split_ws_aux acc (a ++ String c b)
    = split_ws_aux acc a ++ split_ws b.
Proof.
  intro Hc. induction a as [|x a IH]; intro acc; simpl.
  - now rewrite Hc.
  - destruct (is_space x).
    + now rewrite IH, app_assoc.
    + apply IH.
Qed.

Lemma string_snoc (l : list ascii) (c : ascii) (s : string) :
  (string_of_list_ascii (l ++ [c]) ++ s
   = string_of_list_ascii l ++ String c s)%string.
Proof.
  induction l as [|x l IH]; simpl; trivial. now rewrite IH.
Qed.

Lemma append_empty (s : string) : (s ++ "")%string = s.
Proof.
  induction s as [|c s IH]; simpl; trivial. now rewrite IH.
Qed.

Lemma newline_is_space : is_space newline = true.
Proof.
  reflexivity.
Qed.

Lemma words_of_lines_aux (s : string) :
  forall lacc,
    flat_map split_ws (split_on_aux newline lacc s)
    = split_ws (string_of_list_ascii (rev lacc) ++ s).
Proof.
  induction s as [|c s IH]; intro lacc; cbn [split_on_aux].
  - simpl. now rewrite app_nil_r, append_empty.
  - destruct (Ascii.eqb_spec c newline) as [-> | N].
    + cbn [flat_map]. rewrite (IH []). simpl.
      unfold split_ws at 3.
      now rewrite (split_ws_aux_app _ _ newline newline_is_space).
    + rewrite IH. simpl rev. now rewrite string_snoc.
Qed.

Lemma lstrip_chars_nil (l : list ascii) :
  lstrip_chars l = [] <-> forallb is_space l = true.
Proof.
  induction l as [|c l IH]; simpl; [tauto |].
  destruct (is_space c); simpl; [exact IH |].
  split; discriminate.
Qed.

Lemma lstrip_chars_blank (l : list ascii) :
  forallb is_space (lstrip_chars l) = forallb is_space l.
Proof.
  induction l as [|c l IH]; simpl; trivial.
  destruct (is_space c) eqn:E; simpl; trivial. now rewrite E.
Qed.

Lemma forallb_rev {A} (p : A -> bool) (l : list A) :
  forallb p (rev l) = forallb p l.
Proof.
  destruct (forallb p l) eqn:E.
  - rewrite forallb_forall in *. intros x Hx. apply E. now apply in_rev.
  - destruct (forallb p (rev l)) eqn:E'; trivial.
    rewrite forallb_forall in E'.
    assert (forallb p l = true).
    { apply forallb_forall. intros x Hx. apply E'. now apply in_rev in Hx. }
    congruence.
Qed.

(** A line counts as a sentence exactly when it is not blank. *)
Lemma nonempty_strip (s : string) :
  nonempty (strip s) = negb (forallb is_space (chars s)).
Proof.
  unfold strip.
  set (l := lstrip_chars (rev (lstrip_chars (chars s)))).
  assert (B : forallb is_space l = forallb is_space (chars s)).
  { unfold l. now rewrite lstrip_chars_blank, forallb_rev, lstrip_chars_blank. }
  assert (Hl : l = [] <-> forallb is_space (chars s) = true).
  { unfold l. rewrite lstrip_chars_nil, forallb_rev, lstrip_chars_blank.
    tauto. }
  destruct (rev l) as [|c r] eqn:R.
  - assert (l = []) by (destruct l; trivial;
                        apply (f_equal (@length _)) in R;
                        rewrite length_rev in R; discriminate).
    simpl. apply Hl in H. now rewrite H.
  - simpl.
    destruct (forallb is_space (chars s)) eqn:E; trivial.
    assert (l = []) by now apply Hl. subst l. rewrite H in R. discriminate.
Qed.

Lemma sentence_has_word (l : string) :
  nonempty (strip l) = true <-> split_ws l <> [].
Proof.
  rewrite nonempty_strip, negb_true_iff.
  pose proof (split_ws_aux_nil l []) as H. fold (split_ws l) in H.
  rewrite <- not_true_iff_false. tauto.
Qed.

Lemma sentences_le_words (lines : list string) :
  (length (filter (fun l => nonempty (strip l)) lines)
   <= length (flat_map split_ws lines))%nat.
Proof.
  induction lines as [|l lines IH]; simpl; trivial.
  rewrite length_app.
  destruct (nonempty (strip l)) eqn:E; simpl; [| lia].
  apply sentence_has_word in E.
  destruct (split_ws l); [congruence | simpl; lia].
Qed.

Lemma sentences_nil_iff (lines : list string) :
  filter (fun l => nonempty (strip l)) lines = [] <->
  flat_map split_ws lines = [].
Proof.
  induction lines as [|l ls IH]; simpl; [tauto |].
  destruct (nonempty (strip l)) eqn:N.
  - apply sentence_has_word in N. split; [discriminate |].
    intro E. apply app_eq_nil in E as [E _]. contradiction.
  - rewrite IH. split.
    + intros ->. rewrite app_nil_r.
      destruct (split_ws l) eqn:S; trivial.
      assert (H : split_ws l <> []) by congruence.
      apply sentence_has_word in H. congruence.
    + intro E. now apply app_eq_nil in E as [_ E].
Qed.

Lemma sentence_count (s : string) :
  let sentences :=
    map strip (filter (fun l => nonempty (strip l)) (split_on newline s)) in
  (length sentences <= length (split_ws s))%nat /\
  (sentences = [] <-> split_ws s = []).
Proof.
  cbv zeta. unfold split_on.
  pose proof (words_of_lines_aux s []) as W. simpl in W.
  rewrite length_map, <- W. split; [apply sentences_le_words |].
  rewrite <- sentences_nil_iff. split.
  - apply map_eq_nil.
  - intros ->. reflexivity.
Qed.

(** X14. Words and sentences agree: the words of a text are the words of
    its lines in order, there are at most as many non-blank lines as
    words, and a text has a non-blank line exactly when it has a word. *)
Theorem sentences_and_words (s : string) :
  let lines := split_on newline s in
  let sentences := map strip (filter (fun l => nonempty (strip l)) lines) in
  split_ws s = flat_map split_ws lines /\
  (length sentences <= length (split_ws s))%nat /\
  (sentences = [] <-> split_ws s = []).
Proof.
  cbv zeta. split.
  - unfold split_on. pose proof (words_of_lines_aux s []) as W.
    simpl in W. now rewrite W.
  - apply sentence_count.
Qed.

(** ** Ranges of the metrics *)

Lemma round_nd_upper_grid (d : nat) (k : Z) (q : Q) :
  q <= k # pow10 d -> round_nd d q <= k # pow10 d.
Proof.
  intro H. unfold round_nd. rewrite Qred_correct.
  pose proof (pow10_pos d) as HP. set (P := pow10 d) in *.
  assert (E : (k # P) * inject_Z (Zpos P) == inject_Z k).
  { unfold Qeq, Qmult, inject_Z. cbn [Qnum Qden].
    rewrite Pos2Z.inj_mul. ring. }
  assert (L : (round_half_even (q * inject_Z (Zpos P)) <= k)%Z).
  { apply round_half_even_upper. rewrite <- E. nra. }
  unfold Qle. cbn [Qnum Qden]. nia.
Qed.

Lemma metrics_of_blank (s : string) :
  split_ws s = [] -> metrics_of_text s = zero_metrics.
Proof.
  intro E. unfold metrics_of_text.
  destruct (sentence_count s) as (_ & H). cbv zeta in H.
  rewrite (proj2 H E), E. reflexivity.
Qed.

Lemma distinct_nonempty (ws : list string) : ws <> [] -> distinct ws <> [].
Proof.
  destruct ws as [|w ws]; [congruence | intros _ E].
  assert (H : In w (distinct (w :: ws))) by (apply nodup_In; now left).
  rewrite E in H. destruct H.
Qed.

Lemma Qnat_le (a b : nat) : (a <= b)%nat -> Qnat a <= Qnat b.
Proof.
  intro H. unfold Qnat. rewrite <- Zle_Qle. lia.
Qed.

Lemma metrics_of_worded (s : string) :
  split_ws s <> [] ->
  let m := metrics_of_text s in
  (1 <= Metrics.unique_words m)%nat /\
  1 <= Metrics.avg_sentence_length m /\
  Metrics.avg_sentence_length m <= Qnat (Metrics.total_words m) /\
  Metrics.flesch_kincaid_score m <= 20582 # 100.
Proof.
  intro N. cbv zeta. unfold metrics_of_text.
  destruct (sentence_count s) as (Hle & Hnil). cbv zeta in Hle, Hnil.
  set (sentences :=
         map strip (filter (fun l => nonempty (strip l)) (split_on newline s)))
    in *.
  set (W := split_ws s) in *.
  cbn [Metrics.unique_words Metrics.avg_sentence_length Metrics.total_words
       Metrics.flesch_kincaid_score].
  assert (HW : (1 <= length W)%nat) by (destruct W; [congruence | simpl; lia]).
  assert (HS : (1 <= length sentences)%nat).
  { destruct sentences; [| simpl; lia]. exfalso. apply N. now apply Hnil. }
  replace (0 <? length W)%nat with true
    by (symmetry; apply Nat.ltb_lt; lia).
  pose proof (Qnat_le _ _ HS) as QS. change (Qnat 1) with 1 in QS.
  pose proof (Qnat_le _ _ Hle) as QL.
  set (asl := match sentences with
              | [] => 0
              | _ :: _ => Qnat (length W) / Qnat (length sentences)
              end).
  assert (Hasl : asl == Qnat (length W) / Qnat (length sentences)).
  { unfold asl. destruct sentences; [simpl in HS; lia | reflexivity]. }
  assert (A1 : 1 <= asl).
  { rewrite Hasl. apply Qle_shift_div_l; lra. }
  assert (A2 : asl <= Qnat (length W)).
  { rewrite Hasl. apply Qle_shift_div_r; [lra |].
    assert (0 <= Qnat (length W)) by (apply (Qnat_le 0); lia). nra. }
  split; [| split; [| split]].
  - pose proof (distinct_nonempty W N). destruct (distinct W);
      [congruence | simpl; lia].
  - now apply (round_nd_lower 2 1).
  - now apply (round_nd_upper 2 (Z.of_nat (length W))).
  - apply (round_nd_upper_grid 2 20582).
    assert (0 <= Qnat (count_vowels (lower s)) / Qnat (length W)).
    { apply Qle_shift_div_l.
      - pose proof (Qnat_le _ _ HW) as Q1. change (Qnat 1) with 1 in Q1. lra.
      - assert (0 <= Qnat (count_vowels (lower s))) by (apply (Qnat_le 0); lia).
        lra. }
    change (20582 # pow10 2) with (20582 # 100).
    assert (E : (20582 # 100) == (206835 # 1000) - (1015 # 1000))
      by reflexivity.
    rewrite E. nra.
Qed.

(** X15. A text without words gets the all-zero metrics of absent lyrics.
    A text with words has at least one unique word, an average sentence
    length between 1 and its number of words, and a readability score of
    at most 205.82. *)
Theorem metrics_ranges (lyrics : option string) :
  let m := calculate_complexity_metrics lyrics in
  (Metrics.total_words m = 0%nat -> m = zero_metrics) /\
  ((0 < Metrics.total_words m)%nat ->
   (1 <= Metrics.unique_words m)%nat /\
   1 <= Metrics.avg_sentence_length m /\
   Metrics.avg_sentence_length m <= Qnat (Metrics.total_words m) /\
   Metrics.flesch_kincaid_score m <= 20582 # 100).
Proof.
  cbv zeta. destruct lyrics as [[|c s0]|];
    try (split; [reflexivity | simpl; lia]).
  set (s := String c s0).
  change (calculate_complexity_metrics (Some s)) with (metrics_of_text s).
  split.
  - intro H. apply metrics_of_blank.
    unfold metrics_of_text in H. simpl in H.
    now apply length_zero_iff_nil.
  - intro H. apply metrics_of_worded.
    unfold metrics_of_text in H. simpl in H.
    intro E. rewrite E in H. simpl in H. lia.
Qed.

(** A single one-letter word without a vowel reaches the bound. *)
Lemma metrics_ranges_witness :
  Metrics.flesch_kincaid_score (calculate_complexity_metrics (Some "x"%string))
  == 20582 # 100 /\
  Metrics.flesch_kincaid_score (calculate_complexity_metrics (Some "x"%string))
  <= 20582 # 100.
Proof.
  split; [reflexivity |].
  apply (metrics_ranges (Some "x"%string)). simpl. lia.
Defined.

(** ** The rows written by the extractor *)

Lemma metrics_unit (lyrics : option string) :
  let m := calculate_complexity_metrics lyrics in
  (Metrics.unique_words m <= Metrics.total_words m)%nat /\
  0 <= Metrics.lexical_diversity m /\ Metrics.lexical_diversity m <= 1.
Proof.
  cbv zeta. destruct lyrics as [[|c s0]|];
    try (simpl; repeat split; (lra || lia)).
  set (s := String c s0).
  change (calculate_complexity_metrics (Some s)) with (metrics_of_text s).
  unfold metrics_of_text.
  cbn [Metrics.lexical_diversity Metrics.unique_words Metrics.total_words].
  pose proof (distinct_length (split_ws s)) as Hd.
  split; [exact Hd |].
  destruct (Nat.ltb_spec 0 (length (split_ws s))).
  - apply round_nd_unit; now apply Qnat_ratio_unit.
  - apply round_nd_unit; lra.
Qed.

(** X16. Every row [process_year] writes, whatever the search answers:
    one row per chart entry in chart order with the year asked for; the
    flag is never missing; the unique words are at most the total words
    and the diversity lies in [[0, 1]]; and a row without lyrics carries
    zero in all five metrics. *)
Theorem process_year_rows
  (search : string -> string -> option string) (y : Z)
  (hot_100 : list ChartEntry) :
  let rows := process_year search y hot_100 in
  map rank rows = map entry_rank hot_100 /\
  map title rows = map entry_title hot_100 /\
  Forall (fun r =>
            year r = y /\
            (exists b, lyrics_found r = Some b) /\
            unique_words r <= total_words r /\
            0 <= lexical_diversity r /\ lexical_diversity r <= 1 /\
            (lyrics_found r = Some false ->
             unique_words r = 0 /\ total_words r = 0 /\
             avg_sentence_length r = 0 /\ flesch_kincaid_score r = 0 /\
             lexical_diversity r = 0))
         rows.
Proof.
  cbv zeta. unfold process_year. rewrite !map_map. simpl.
  split; [reflexivity |]. split; [reflexivity |].
  apply Forall_forall. intros r Hr.
  apply in_map_iff in Hr as (e & <- & _).
  set (l := search (entry_title e) (entry_artist e)).
  destruct (metrics_unit l) as (U & L0 & L1). cbv zeta in *.
  unfold song_data. simpl.
  split; [reflexivity |]. split; [eauto |].
  split; [now apply Qnat_le |]. split; [exact L0 |]. split; [exact L1 |].
  destruct l; [discriminate | intros _; repeat split].
Qed.

Lemma process_year_ranks
  (search : string -> string -> option string) (y : Z)
  (hot_100 : list ChartEntry) :
  map rank (process_year search y hot_100) = map entry_rank hot_100.
Proof.
  unfold process_year. rewrite map_map. reflexivity.
Qed.

Lemma mock_chart_ranks (y : Z) :
  map entry_rank (map snd (get_billboard_hot_100 y))
  = map Z.of_nat (seq 1 100).
Proof.
  reflexivity.
Qed.

(** X17. For every year the mock chart has 100 entries, ranked 1 to 100
    in order and all tagged with that year; so every row extracted from
    it gets a rank category: ten "Top 10", fifteen "Top 25", twenty-five
    "Top 50" and fifty "Top 100". *)
Theorem mock_chart_ranks_and_categories
  (search : string -> string -> option string) (y : Z) :
  length (get_billboard_hot_100 y) = 100%nat /\
  map fst (get_billboard_hot_100 y) = repeat y 100 /\
  map (fun e => entry_rank (snd e)) (get_billboard_hot_100 y)
  = map Z.of_nat (seq 1 100) /\
  map (fun r => rank_category (categorize r)) (process_chart_year search y)
  = repeat (Some "Top 10"%string) 10 ++ repeat (Some "Top 25"%string) 15
    ++ repeat (Some "Top 50"%string) 25 ++ repeat (Some "Top 100"%string) 50.
Proof.
  split; [reflexivity |]. split; [| split].
  - unfold get_billboard_hot_100. rewrite map_map. simpl.
    reflexivity.
  - rewrite <- map_map. apply mock_chart_ranks.
  - unfold process_chart_year.
    transitivity (map rank_category_of
                    (map rank (process_year search y
                                 (map snd (get_billboard_hot_100 y))))).
    { rewrite map_map. reflexivity. }
    rewrite process_year_ranks, mock_chart_ranks. reflexivity.
Qed.

Lemma process_chart_year_length
  (search : string -> string -> option string) (y : Z) :
  length (process_chart_year search y) = 100%nat.
Proof.
  unfold process_chart_year, process_year. now rewrite length_map.
Qed.

Lemma process_chart_year_years
  (search : string -> string -> option string) (y : Z) :
  map year (process_chart_year search y) = repeat y 100.
Proof.
  unfold process_chart_year, process_year. rewrite map_map. simpl.
  reflexivity.
Qed.

Lemma year_range_nil (a b : Z) : year_range a b = [] <-> (b < a)%Z.
Proof.
  unfold year_range. split.
  - intro E. apply map_eq_nil in E.
    destruct (Z.to_nat (b - a + 1)) eqn:N; [lia | discriminate].
  - intro H. replace (Z.to_nat (b - a + 1)) with 0%nat by lia. reflexivity.
Qed.

Lemma year_range_In (a b y : Z) :
  In y (year_range a b) <-> (a <= y <= b)%Z.
Proof.
  unfold year_range. rewrite in_map_iff. split.
  - intros (i & <- & Hi). apply in_seq in Hi. lia.
  - intro H. exists (Z.to_nat (y - a)). split; [lia |].
    apply in_seq. lia.
Qed.

Lemma year_range_length (a b : Z) :
  length (year_range a b) = Z.to_nat (b - a + 1).
Proof.
  unfold year_range. now rewrite length_map, length_seq.
Qed.

Lemma concat_years
  (search : string -> string -> option string) (ys : list Z) :
  length (concat (map (process_chart_year search) ys))
  = (100 * length ys)%nat /\
  map year (concat (map (process_chart_year search) ys))
  = flat_map (fun y => repeat y 100) ys.
Proof.
  induction ys as [|y ys [IL IY]]; [split; reflexivity |].
  cbn [map concat flat_map length]. split.
  - rewrite length_app, IL, process_chart_year_length. lia.
  - now rewrite map_app, IY, process_chart_year_years.
Qed.

(** X18. [process_multiple_years] fails with pandas' [ValueError] exactly
    when the end year precedes the start year; otherwise it returns 100
    rows for each year from start to end, the years in ascending
    blocks. *)
Theorem process_multiple_years_rows
  (search : string -> string -> option string) (start_year end_year : Z) :
  ((end_year < start_year)%Z ->
   process_multiple_years search start_year end_year
   = inl (ValueError "No objects to concatenate")) /\
  ((start_year <= end_year)%Z ->
   exists rows,
     process_multiple_years search start_year end_year = inr rows /\
     length rows = (100 * Z.to_nat (end_year - start_year + 1))%nat /\
     map year rows
     = flat_map (fun y => repeat y 100) (year_range start_year end_year) /\
     (forall r, In r rows -> (start_year <= year r <= end_year)%Z)).
Proof.
  unfold process_multiple_years, pd_concat. split.
  - intro H. apply year_range_nil in H. now rewrite H.
  - intro H.
    destruct (concat_years search (year_range start_year end_year))
      as [L Y].
    rewrite year_range_length in L.
    exists (concat (map (process_chart_year search)
                      (year_range start_year end_year))).
    split; [| split; [exact L | split; [exact Y |]]].
    + destruct (year_range start_year end_year) as [|y ys] eqn:E;
        [| reflexivity].
      apply year_range_nil in E. lia.
    + intros r Hr. apply (in_map year) in Hr. rewrite Y in Hr.
      apply in_flat_map in Hr as (y' & Hy' & Hr).
      apply repeat_spec in Hr. rewrite Hr. now apply year_range_In.
Qed.

(** The decade the extractor's [main] asks for. *)
Lemma process_multiple_years_rows_witness :
  exists rows,
    process_multiple_years (fun _ _ => None) 2015 2024 = inr rows /\
    length rows = 1000%nat.
Proof.
  destruct (process_multiple_years_rows (fun _ _ => None) 2015 2024)
    as (_ & H).
  destruct (H ltac:(lia)) as (rows & E & L & _).
  exists rows. split; [exact E | exact L].
Defined.

(** ** File names *)

Lemma occurs_false_replace (old new : string) (s : string) :
  occurs old s = false -> replace_aux old new 0 s = s.
Proof.
  induction s as [|c s IH]; intro H; trivial.
  cbn [occurs] in H. apply orb_false_iff in H as [H1 H2].
  cbn [replace_aux]. rewrite H1. now rewrite (IH H2).
Qed.

Lemma read_back_same (p : string) (a b c : table) :
  read_back p [(p, a); (p, b); (p, c)] = Some c.
Proof.
  simpl. now rewrite String.eqb_refl.
Qed.

(** X19. When the input path does not contain [.csv], the three output
    paths are the input path itself: the three tables are written over
    one another and over the input, which ends up holding the decade
    table. *)
Theorem save_without_csv_extension (input_file : string) (t : Transformed) :
  occurs ".csv" input_file = false ->
  map fst (save_transformed_data input_file t)
  = [input_file; input_file; input_file] /\
  read_back input_file (save_transformed_data input_file t)
  = Some (DecadeTable (transformed_decade t)).
Proof.
  intro H. unfold save_transformed_data, str_replace.
  rewrite !(occurs_false_replace _ _ _ H). split; [reflexivity |].
  apply read_back_same.
Qed.

Lemma save_without_csv_extension_witness :
  map fst (save_transformed_data "../data/lyrics.tsv"
             (calculate_additional_metrics []))
  = ["../data/lyrics.tsv"; "../data/lyrics.tsv"; "../data/lyrics.tsv"]%string.
Proof.
  apply (save_without_csv_extension "../data/lyrics.tsv"
           (calculate_additional_metrics [])).
  reflexivity.
Defined.

Lemma starts_with_app_long (p x y : string) :
  (String.length p <= String.length x)%nat ->
  starts_with p (x ++ y) = starts_with p x.
Proof.
  revert x. induction p as [|a p IH]; intros x H; [reflexivity |].
  destruct x as [|b x]; [simpl in H; lia |].
  simpl. rewrite IH; [reflexivity | simpl in H; lia].
Qed.

Lemma append_assoc (a b c : string) :
  ((a ++ b) ++ c = a ++ (b ++ c))%string.
Proof.
  induction a as [|x a IH]; simpl; trivial. now rewrite IH.
Qed.

Lemma length_append (a b : string) :
  String.length (a ++ b) = (String.length a + String.length b)%nat.
Proof.
  induction a as [|x a IH]; simpl; auto.
Qed.

(** Replacing the extension of a path whose only [.csv] is its end. *)
Lemma replace_extension (new stem : string) :
  occurs ".csv" (stem ++ ".cs") = false ->
  str_replace ".csv" new (stem ++ ".csv") = (stem ++ new)%string.
Proof.
  unfold str_replace. induction stem as [|c stem IH]; intro H.
  - simpl. now rewrite append_empty.
  - cbn [append occurs] in H. apply orb_false_iff in H as [H1 H2].
    cbn [append replace_aux].
    replace (String c (stem ++ ".csv"))
      with ((String c (stem ++ ".cs")) ++ "v")%string
      by (simpl; now rewrite append_assoc).
    rewrite starts_with_app_long, H1.
    + now rewrite (IH H2).
    + simpl. rewrite length_append. simpl. lia.
Qed.

Lemma append_inj_l (a b c : string) : (a ++ b = a ++ c)%string -> b = c.
Proof.
  induction a as [|x a IH]; simpl; intro H; trivial.
  injection H as H. auto.
Qed.

Lemma save_paths (stem : string) (t : Transformed) :
  occurs ".csv" (stem ++ ".cs") = false ->
  save_transformed_data (stem ++ ".csv") t
  = [((stem ++ "_transformed.csv")%string, DataTable (transformed_data t));
     ((stem ++ "_yearly_stats.csv")%string,
      YearlyTable (transformed_yearly t));
     ((stem ++ "_decade_stats.csv")%string,
      DecadeTable (transformed_decade t))].
Proof.
  intro H. unfold save_transformed_data.
  now rewrite !(replace_extension _ _ H).
Qed.

(** X20. For an input path that ends in [.csv] and contains [.csv]
    nowhere else, the three tables go to the path with the endings
    [_transformed.csv], [_yearly_stats.csv] and [_decade_stats.csv]:
    three different files, none of them the input, each read back as
    written. *)
Theorem save_file_names (stem : string) (t : Transformed) :
  occurs ".csv" (stem ++ ".cs") = false ->
  let writes := save_transformed_data (stem ++ ".csv") t in
  map fst writes
  = [stem ++ "_transformed.csv"; stem ++ "_yearly_stats.csv";
     stem ++ "_decade_stats.csv"]%string /\
  NoDup ((stem ++ ".csv")%string :: map fst writes) /\
  read_back (stem ++ ".csv") writes = None /\
  read_back (stem ++ "_transformed.csv") writes
  = Some (DataTable (transformed_data t)) /\
  read_back (stem ++ "_yearly_stats.csv") writes
  = Some (YearlyTable (transformed_yearly t)) /\
  read_back (stem ++ "_decade_stats.csv") writes
  = Some (DecadeTable (transformed_decade t)).
Proof.
  intro H. cbv zeta. rewrite (save_paths stem t H).
  assert (D : forall a b : string,
             a <> b -> (stem ++ a)%string <> (stem ++ b)%string).
  { intros a b N E. apply N. now apply append_inj_l in E. }
  assert (Q : forall a b : string,
             a <> b -> String.eqb (stem ++ a) (stem ++ b) = false).
  { intros a b N. apply String.eqb_neq. now apply D. }
  split; [reflexivity |]. split.
  - cbn [map fst]. repeat constructor; simpl;
      intuition; match goal with
                 | E : (stem ++ _)%string = (stem ++ _)%string |- _ =>
                     apply append_inj_l in E; discriminate E
                 end.
  - cbn [read_back]. rewrite !String.eqb_refl.
    rewrite !Q by discriminate. repeat split.
Qed.

Lemma save_file_names_witness :
  map fst (save_transformed_data
             "../data/billboard_hot_100_complexity_2015_2024.csv"
             (calculate_additional_metrics []))
  = ["../data/billboard_hot_100_complexity_2015_2024_transformed.csv";
     "../data/billboard_hot_100_complexity_2015_2024_yearly_stats.csv";
     "../data/billboard_hot_100_complexity_2015_2024_decade_stats.csv"]%string.
Proof.
  apply (save_file_names "../data/billboard_hot_100_complexity_2015_2024"
           (calculate_additional_metrics [])).
  reflexivity.
Defined.

(** ** Picking the latest file *)

Lemma latest_first_max {A} (files : list (Z * A)) :
  forall pre best mid,
    (forall g, In g pre -> (fst g < fst best)%Z) ->
    (forall g, In g mid -> (fst g <= fst best)%Z) ->
    exists pre' post',
      pre ++ best :: mid ++ files = pre' ++ latest best files :: post' /\
      (forall g, In g pre' -> (fst g < fst (latest best files))%Z) /\
      (forall g, In g post' -> (fst g <= fst (latest best files))%Z).
Proof.
  induction files as [|f files IH]; intros pre best mid Hpre Hmid.
  - exists pre, mid. simpl. rewrite app_nil_r. auto.
  - cbn [latest]. destruct (Z.ltb_spec (fst best) (fst f)) as [L | L].
    + destruct (IH (pre ++ best :: mid) f []) as (pre' & post' & E & H1 & H2).
      * intros g Hg. apply in_app_or in Hg as [Hg | [<- | Hg]].
        -- specialize (Hpre g Hg). lia.
        -- exact L.
        -- specialize (Hmid g Hg). lia.
      * intros g [].
      * exists pre', post'. split; [| auto].
        rewrite <- E. rewrite <- !app_assoc. reflexivity.
    + destruct (IH pre best (mid ++ [f])) as (pre' & post' & E & H1 & H2);
        trivial.
      * intros g Hg. apply in_app_or in Hg as [Hg | [<- | []]]; auto.
      * exists pre', post'. split; [| auto].
        rewrite <- E. rewrite <- !app_assoc. reflexivity.
Qed.

(** X21. The file the DAG's checks and the transformer's [main] take as
    "latest" is a file of the list with the greatest modification time,
    and the first such file in list order. *)
Theorem latest_is_first_newest {A} (f : Z * A) (files : list (Z * A)) :
  exists pre post,
    f :: files = pre ++ latest f files :: post /\
    (forall g, In g pre -> (fst g < fst (latest f files))%Z) /\
    (forall g, In g post -> (fst g <= fst (latest f files))%Z).
Proof.
  destruct (latest_first_max files [] f []) as (pre & post & E & H1 & H2);
    try (intros g []).
  exists pre, post. auto.
Qed.

Lemma latest_unique_newest {A} (dec : forall x y : A, {x = y} + {x <> y})
  (f : Z * A) (files : list (Z * A)) (m : Z * A) :
  In m (f :: files) ->
  (forall g, In g (f :: files) -> g <> m -> (fst g < fst m)%Z) ->
  latest f files = m.
Proof.
  intros Hm Hlt.
  destruct (latest_first_max files [] f []) as (pre & post & E & H1 & H2);
    try (intros g []).
  cbn [app] in E.
  assert (Hin : In (latest f files) (f :: files)).
  { rewrite E. apply in_or_app. right. now left. }
  assert (Hle : (fst m <= fst (latest f files))%Z).
  { rewrite E in Hm. apply in_app_or in Hm as [Hm | [<- | Hm]].
    - specialize (H1 m Hm). lia.
    - lia.
    - now apply H2. }
  assert (D : {latest f files = m} + {latest f files <> m}).
  { decide equality. apply Z.eq_dec. }
  destruct D as [-> | N]; trivial.
  specialize (Hlt _ Hin N). lia.
Qed.

(** ** The transformer's outputs against its own input pattern *)

Lemma substring_all (s : string) : substring 0 (String.length s) s = s.
Proof.
  induction s as [|c s IH]; simpl; trivial. now rewrite IH.
Qed.

Lemma ends_with_app (a p : string) : ends_with p (a ++ p) = true.
Proof.
  unfold ends_with. rewrite length_append.
  replace (String.length a + String.length p - String.length p)%nat
    with (String.length a) by lia.
  apply andb_true_iff. split; [apply Nat.leb_le; lia |].
  apply String.eqb_eq.
  induction a as [|c a IH]; simpl; [apply substring_all | exact IH].
Qed.

Lemma lyrics_file_output (stem ending : string) :
  lyrics_file (stem ++ ".csv") = true ->
  lyrics_file (stem ++ (ending ++ ".csv")) = true.
Proof.
  unfold lyrics_file, glob_match. intro H.
  apply andb_true_iff in H as [H L]. apply andb_true_iff in H as [S _].
  apply Nat.leb_le in L. rewrite length_append in L. simpl in L.
  assert (Hp : (String.length "billboard_hot_100_complexity_"
                <= String.length stem)%nat) by (simpl; lia).
  rewrite starts_with_app_long in S by exact Hp.
  rewrite starts_with_app_long by exact Hp. rewrite S.
  rewrite <- append_assoc, ends_with_app. cbn [andb].
  apply Nat.leb_le. rewrite !length_append. simpl in *. lia.
Qed.

(** X22. The transformer feeds on its own output.  For an input
    [../data/<stem>.csv] found by the pattern of [main] (and holding
    [.csv] only at its end), the three files it writes match that
    pattern too; and once the decade table is the most recently modified
    matching file of the directory, [main] takes it as the next input. *)
Theorem outputs_match_input_pattern (stem : string) (t : Transformed)
  (mtime : Z) (listing : list (Z * string)) :
  lyrics_file (stem ++ ".csv") = true ->
  occurs ".csv" ("../data/" ++ stem ++ ".cs") = false ->
  In (mtime, (stem ++ "_decade_stats.csv")%string) listing ->
  (forall g, In g listing ->
             g <> (mtime, (stem ++ "_decade_stats.csv")%string) ->
             (fst g < mtime)%Z) ->
  map fst (save_transformed_data ("../data/" ++ stem ++ ".csv") t)
  = map (append "../data/")
        [stem ++ "_transformed.csv"; stem ++ "_yearly_stats.csv";
         stem ++ "_decade_stats.csv"]%string /\
  Forall (fun n => lyrics_file n = true)
         [stem ++ "_transformed.csv"; stem ++ "_yearly_stats.csv";
          stem ++ "_decade_stats.csv"]%string /\
  transform_main_input listing
  = Some ("../data/" ++ stem ++ "_decade_stats.csv")%string.
Proof.
  intros M O Hin Hlt. split; [| split].
  - change ("../data/" ++ stem ++ ".csv")%string
      with (("../data/" ++ stem) ++ ".csv")%string.
    change ("../data/" ++ stem ++ ".cs")%string
      with (("../data/" ++ stem) ++ ".cs")%string in O.
    rewrite (save_paths ("../data/" ++ stem) t O). reflexivity.
  - repeat constructor.
    + apply (lyrics_file_output stem "_transformed" M).
    + apply (lyrics_file_output stem "_yearly_stats" M).
    + apply (lyrics_file_output stem "_decade_stats" M).
  - unfold transform_main_input.
    set (m := (mtime, (stem ++ "_decade_stats.csv")%string)) in *.
    assert (Hm : In m (filter (fun f => lyrics_file (snd f)) listing)).
    { apply filter_In. split; trivial.
      apply (lyrics_file_output stem "_decade_stats" M). }
    destruct (filter (fun f => lyrics_file (snd f)) listing)
      as [|f files] eqn:F; [destruct Hm |].
    rewrite (latest_unique_newest string_dec f files m Hm); [reflexivity |].
    intros g Hg N. apply Hlt; trivial.
    rewrite <- F in Hg. now apply filter_In in Hg as [Hg _].
Qed.

(** The directory after a first run on the extractor's file. *)
Lemma outputs_match_input_pattern_witness :
  transform_main_input
    [(100%Z, "billboard_hot_100_complexity_2015_2024.csv");
     (201%Z, "billboard_hot_100_complexity_2015_2024_transformed.csv");
     (202%Z, "billboard_hot_100_complexity_2015_2024_yearly_stats.csv");
     (203%Z, "billboard_hot_100_complexity_2015_2024_decade_stats.csv");
     (90%Z, "test_mock_data.csv")]%string
  = Some "../data/billboard_hot_100_complexity_2015_2024_decade_stats.csv"%string.
Proof.
  apply (outputs_match_input_pattern
           "billboard_hot_100_complexity_2015_2024"
           (calculate_additional_metrics []) 203%Z).
  - reflexivity.
  - reflexivity.
  - simpl. tauto.
  - intros g Hg N. simpl in Hg.
    destruct Hg as [<- | [<- | [<- | [<- | [<- | []]]]]];
      try (simpl; lia).
    exfalso. apply N. reflexivity.
Defined.

(** ** Splitting on a separator *)

Lemma split_on_aux_spec (sep : ascii) (s : string) :
  forall acc,
    ~ In sep acc ->
    (string_of_list_ascii (rev acc) ++ s)%string
    = join sep (split_on_aux sep acc s) /\
    Forall (fun p => ~ In sep (chars p)) (split_on_aux sep acc s) /\
    length (split_on_aux sep acc s)
    = S (count_occ ascii_dec (chars s) sep).
Proof.
  induction s as [|c s IH]; intros acc Hacc; cbn [split_on_aux].
  - split; [| split].
    + simpl. now rewrite !append_empty.
    + repeat constructor. rewrite chars_of_list. now rewrite <- in_rev.
    + reflexivity.
  - destruct (Ascii.eqb_spec c sep) as [-> | N].
    + destruct (IH [] ltac:(intros [])) as (J & F & L). split; [| split].
      * cbn [join join_rest]. simpl in J. revert J L.
        destruct (split_on_aux sep [] s) as [|p ps]; intros J L;
          [discriminate L |].
        cbn [join] in J. cbn [join join_rest]. now rewrite <- J.
      * constructor; trivial. rewrite chars_of_list. now rewrite <- in_rev.
      * cbn [length]. rewrite L. simpl.
        destruct (ascii_dec sep sep); [reflexivity | contradiction].
    + destruct (IH (c :: acc)) as (J & F & L).
      { intros [E | H]; [now apply N | contradiction]. }
      split; [| split]; trivial.
      * rewrite <- J. simpl rev. now rewrite string_snoc.
      * rewrite L. simpl.
        destruct (ascii_dec c sep); [contradiction | reflexivity].
Qed.

(** X23. [str.split(sep)] as used on newlines by the metrics and on
    semicolons by [create_tables] loses nothing: joining the pieces with
    the separator gives back the text, no piece contains the separator,
    and there is one piece more than separators in the text. *)
Theorem split_on_round_trip (sep : ascii) (s : string) :
  join sep (split_on sep s) = s /\
  Forall (fun p => ~ In sep (chars p)) (split_on sep s) /\
  length (split_on sep s) = S (count_occ ascii_dec (chars s) sep).
Proof.
  destruct (split_on_aux_spec sep s [] ltac:(intros [])) as (J & F & L).
  unfold split_on. split; [| split]; trivial.
  now rewrite <- J.
Qed.

(** ** The loader's file and the gate's file *)

Lemma latest_keeps_best {A} (files : list (Z * A)) (f : Z * A) :
  (forall g, In g files -> (fst g <= fst f)%Z) -> latest f files = f.
Proof.
  revert f. induction files as [|g files IH]; intros f H; trivial.
  cbn [latest]. replace (fst f <? fst g)%Z with false.
  - apply IH. intros; apply H; now right.
  - symmetry. apply Z.ltb_ge. apply H. now left.
Qed.

(** X24. The loader reads the first transformed file of the listing,
    while the gate and the report read the latest.  When no later file of
    the listing is newer than the first they read the same file; when one
    is strictly newer, the gate reads a file with a strictly later
    modification time than the loader's. *)
Theorem loader_and_gate_files {A} (f : Z * A) (files : list (Z * A)) :
  ((forall g, In g files -> (fst g <= fst f)%Z) -> latest f files = f) /\
  ((exists g, In g files /\ (fst f < fst g)%Z) ->
   (fst f < fst (latest f files))%Z).
Proof.
  split; [apply latest_keeps_best |].
  intros (g & Hg & L).
  destruct (latest_first_max files [] f []) as (pre & post & E & H1 & H2);
    try (intros ? []).
  cbn [app] in E.
  assert (Hin : In g (pre ++ latest f files :: post))
    by (rewrite <- E; now right).
  apply in_app_or in Hin as [Hin | [<- | Hin]].
  - specialize (H1 g Hin). lia.
  - exact L.
  - specialize (H2 g Hin). lia.
Qed.

Lemma loader_and_gate_files_witness :
  latest (5%Z, "a_transformed.csv"%string)
         [(3%Z, "b_transformed.csv"%string)]
  = (5%Z, "a_transformed.csv"%string) /\
  (3 < fst (latest (3%Z, "b_transformed.csv"%string)
                   [(5%Z, "a_transformed.csv"%string)]))%Z.
Proof.
  split.
  - apply (proj1 (loader_and_gate_files _ _)).
    intros g [<- | []]. simpl. lia.
  - apply (proj2 (loader_and_gate_files (3%Z, "b_transformed.csv"%string)
                    [(5%Z, "a_transformed.csv"%string)])).
    eexists. split; [now left | simpl; lia].
Defined.

(** ** The mock data of the test script *)

Lemma clamp_score_range (x : Q) :
  -50 <= clamp_score x /\ clamp_score x <= 100.
Proof.
  unfold clamp_score.
  destruct (Qle_bool 100 x) eqn:E1.
  - simpl. split; [discriminate |]. apply Qle_refl.
  - destruct (Qle_bool x (-50)) eqn:E2.
    + split; [apply Qle_refl | discriminate].
    + apply Qle_bool_false in E1, E2. split; lra.
Qed.

Lemma mock_record_kept (y : Z) (rk : nat) (d : Draw) :
  has_lyrics (mock_record y rk d) = true /\
  in_score_range (mock_record y rk d) = true.
Proof.
  split; [reflexivity |].
  unfold in_score_range, mock_record. simpl.
  apply between_iff. destruct (clamp_score_range (draw_score d)).
  split.
  - now apply (round_nd_lower 2 (-50)).
  - now apply (round_nd_upper 2 100).
Qed.

Lemma mock_data_In (draw : Z -> nat -> Draw) (r : SongRecord) :
  In r (mock_data draw) ->
  exists y rk, r = mock_record y rk (draw y rk).
Proof.
  unfold mock_data. intro H.
  apply in_flat_map in H as (y & _ & H).
  apply in_map_iff in H as (rk & <- & _). eauto.
Qed.

(** X25. The mock rows of the test are never outliers: whatever the
    random draws, the frame has 1000 rows, its score assertion holds, and
    [clean_data] keeps every row; the whole test passes as soon as the
    diversity draws lie in the interval [[0.3, 0.8]] they are drawn
    from. *)
Theorem mock_data_survives_cleaning (draw : Z -> nat -> Draw) :
  length (mock_data draw) = 1000%nat /\
  clean_data (mock_data draw) = mock_data draw /\
  test_mock_data_generation draw <> inl "Invalid complexity scores"%string /\
  ((forall y rk, (3 # 10) <= draw_diversity (draw y rk) /\
                 draw_diversity (draw y rk) <= (8 # 10)) ->
   test_mock_data_generation draw = inr true).
Proof.
  assert (L : length (mock_data draw) = 1000%nat) by reflexivity.
  assert (K : forallb (fun r => between (-50) 100 (flesch_kincaid_score r))
                      (mock_data draw) = true).
  { apply forallb_forall. intros r Hr.
    apply mock_data_In in Hr as (y & rk & ->).
    apply (mock_record_kept y rk). }
  split; [exact L |]. split; [| split].
  - unfold clean_data. rewrite !filter_all; trivial.
    + apply Forall_forall. intros r Hr.
      apply mock_data_In in Hr as (y & rk & ->). apply mock_record_kept.
    + apply Forall_forall. intros r Hr.
      apply mock_data_In in Hr as (y & rk & ->). apply mock_record_kept.
  - unfold test_mock_data_generation, mock_data_assertions.
    rewrite L, K. change (1000 =? 10 * 100)%nat with true. cbn [negb].
    match goal with
    | |- context [forallb ?f ?l] => destruct (forallb f l)
    end; cbn [negb]; discriminate.
  - intro H. unfold test_mock_data_generation, mock_data_assertions.
    rewrite L, K. change (1000 =? 10 * 100)%nat with true. cbn [negb].
    replace (forallb (fun r => between 0 1 (lexical_diversity r))
                     (mock_data draw)) with true; [reflexivity |].
    symmetry. apply forallb_forall. intros r Hr.
    apply mock_data_In in Hr as (y & rk & ->).
    unfold mock_record. simpl. apply between_iff.
    destruct (H y rk) as [Lo Hi].
    apply round_nd_unit; lra.
Qed.

Lemma mock_data_survives_cleaning_witness :
  test_mock_data_generation
    (fun _ _ => mkDraw 250 120 300 (1234 # 100) (1 # 2)) = inr true.
Proof.
  apply (mock_data_survives_cleaning
           (fun _ _ => mkDraw 250 120 300 (1234 # 100) (1 # 2))).
  intros y rk. simpl. split; discriminate.
Defined.

(** ** The songs named in the report *)

Lemma loc_artist_inv (data : list Categorized) (i : nat) (t : string) :
  loc_artist data i = inr t ->
  exists r, nth_error data i = Some r /\ t = artist (song r).
Proof.
  unfold loc_artist. destruct (nth_error data i) as [r|]; [| discriminate].
  intros [= <-]. eauto.
Qed.

Lemma generate_summary_report_inv (now : string)
  (f : Z * list Categorized) (files : list (Z * list Categorized))
  (s : Summary.t) :
  generate_summary_report now (f :: files) = inr s ->
  let df := snd (latest f files) in
  exists i1 i3,
    idxmin (map fk df) = inr i1 /\ idxmax (map fk df) = inr i3 /\
    loc_title df i1 = inr (Summary.top_complexity_song s) /\
    loc_artist df i1 = inr (Summary.top_complexity_artist s) /\
    loc_title df i3 = inr (Summary.least_complexity_song s) /\
    loc_artist df i3 = inr (Summary.least_complexity_artist s).
Proof.
  cbv zeta. unfold generate_summary_report.
  set (df := snd (latest f files)). intro H.
  destruct (idxmin (map fk df)) as [|i1] eqn:E1; [discriminate |].
  simpl in H.
  destruct (loc_title df i1) as [|t1] eqn:L1; [discriminate |].
  simpl in H.
  destruct (loc_artist df i1) as [|a1] eqn:A1; [discriminate |].
  simpl in H.
  destruct (idxmax (map fk df)) as [|i3] eqn:E3; [discriminate |].
  simpl in H.
  destruct (loc_title df i3) as [|t3] eqn:L3; [discriminate |].
  simpl in H.
  destruct (loc_artist df i3) as [|a3] eqn:A3; [discriminate |].
  simpl in H. injection H as <-. simpl.
  exists i1, i3. auto 10.
Qed.

(** X26. The report names song and artist of one and the same row: the
    top complexity song and artist belong to a row of least score, the
    least complexity song and artist to a row of greatest score. *)
Theorem summary_song_and_artist_same_row (now : string)
  (f : Z * list Categorized) (files : list (Z * list Categorized))
  (s : Summary.t) :
  generate_summary_report now (f :: files) = inr s ->
  let df := snd (latest f files) in
  (exists r, In r df /\
             Summary.top_complexity_song s = title (song r) /\
             Summary.top_complexity_artist s = artist (song r) /\
             forall x, In x df -> fk r <= fk x) /\
  (exists r, In r df /\
             Summary.least_complexity_song s = title (song r) /\
             Summary.least_complexity_artist s = artist (song r) /\
             forall x, In x df -> fk x <= fk r).
Proof.
  intro H. apply generate_summary_report_inv in H. cbv zeta in *.
  set (df := snd (latest f files)) in *.
  destruct H as (i1 & i3 & E1 & E3 & T1 & A1 & T3 & A3).
  destruct (idxmin_spec _ _ E1) as (m1 & Hm1 & Hle1 & _).
  destruct (idxmax_spec _ _ E3) as (m3 & Hm3 & Hle3 & _).
  apply loc_title_inv in T1 as (r1 & R1 & ->).
  apply loc_artist_inv in A1 as (r1' & R1' & ->).
  apply loc_title_inv in T3 as (r3 & R3 & ->).
  apply loc_artist_inv in A3 as (r3' & R3' & ->).
  replace r1' with r1 by congruence. replace r3' with r3 by congruence.
  rewrite nth_error_map, R1 in Hm1. rewrite nth_error_map, R3 in Hm3.
  simpl in Hm1, Hm3.
  split.
  - exists r1. repeat split; eauto using nth_error_In.
    intros x Hx. replace (fk r1) with m1 by congruence.
    apply Hle1. now apply in_map.
  - exists r3. repeat split; eauto using nth_error_In.
    intros x Hx. replace (fk r3) with m3 by congruence.
    apply Hle3. now apply in_map.
Qed.

Lemma summary_song_and_artist_same_row_witness :
  exists s,
    generate_summary_report "2024-01-07 02:00:00" [(1%Z, three_songs)]
    = inr s /\
    Summary.top_complexity_song s = "A"%string /\
    Summary.top_complexity_artist s = "y"%string.
Proof.
  let v := eval vm_compute in
             (generate_summary_report "2024-01-07 02:00:00"
                [(1%Z, three_songs)]) in
  match v with
  | inr ?s =>
      pose proof (summary_song_and_artist_same_row "2024-01-07 02:00:00"
                    (1%Z, three_songs) [] s eq_refl) as H;
      exists s
  end.
  repeat split.
Defined.

(** ** The run of the loader *)

(** X27. The loader's [main] does nothing without a transformed file.
    Otherwise it connects first and closes last; it loads the first
    transformed file listed; and it logs completion exactly when the
    connection, the table creation and every load it attempted succeeded,
    whatever the verification queries return. *)
Theorem load_main_trace
  (transformed_file yearly_stats_file decade_stats_file : list string)
  (r : LoaderReturns) :
  let trace :=
    load_main transformed_file yearly_stats_file decade_stats_file r in
  (transformed_file = [] -> trace = []) /\
  (forall tf rest, transformed_file = tf :: rest ->
     hd_error trace = Some Connect /\
     last trace Connect = Close /\
     (forall f, In (LoadLyricsComplexity f) trace -> f = tf) /\
     (In LogCompleted trace <-> In RunAnalyticsQueries trace) /\
     (In LogCompleted trace <->
      connect_returns r = true /\ create_tables_returns r = true /\
      load_lyrics_returns r = true /\
      (yearly_stats_file = [] \/ load_yearly_returns r = true) /\
      (decade_stats_file = [] \/ load_decade_returns r = true))).
Proof.
  cbv zeta. split; [intros ->; reflexivity |].
  intros tf rest ->.
  destruct r as [c ct ll ly ld an].
  destruct c, ct, ll, ly, ld, yearly_stats_file, decade_stats_file;
    cbn -[In]; (split; [reflexivity |]); (split; [reflexivity |]);
    (split; [| split]); simpl;
    intuition (try discriminate; try congruence).
Qed.

(** The queries fail, the run still completes. *)
Lemma load_main_trace_witness :
  In LogCompleted
     (load_main ["a_transformed.csv"; "b_transformed.csv"]
                ["a_yearly_stats.csv"] []
                (mkReturns true true true true false false))%string.
Proof.
  destruct (load_main_trace ["a_transformed.csv"; "b_transformed.csv"]
              ["a_yearly_stats.csv"] []
              (mkReturns true true true true false false))%string
    as (_ & H).
  destruct (H _ _ eq_refl) as (_ & _ & _ & _ & L).
  apply L. simpl. tauto.
Defined.

(** ** The run of the setup *)

(** X28. Setup ends with exit status 1 exactly when the Python version
    check or one of the steps fails, a missing Docker included; the next
    steps are printed exactly when it does not; the steps run are the
    steps up to the first failing one; and the tests are run only after
    all steps succeeded, on [--test], their result changing nothing. *)
Theorem setup_main_outcome (argv : list string) (r : SetupReturns) :
  let o := setup_main argv r in
  (exit_status o = None <->
   python_version_ok r = true /\ virtual_environment_ok r = true /\
   dependencies_ok r = true /\ environment_file_ok r = true /\
   docker_ok r = true) /\
  (exit_status o = None \/ exit_status o = Some 1%nat) /\
  (next_steps_printed o = true <-> exit_status o = None) /\
  (exists rest, map fst (setup_steps r) = steps_run o ++ rest) /\
  (exit_status o = Some 1%nat -> python_version_ok r = true ->
   In (last (steps_run o) ""%string, false) (setup_steps r)) /\
  (tests_run o = true <->
   exit_status o = None /\ hd_error argv = Some "--test"%string) /\
  setup_main argv r
  = setup_main argv
      (mkSetup (python_version_ok r) (virtual_environment_ok r)
               (dependencies_ok r) (environment_file_ok r) (docker_ok r)
               (negb (tests_ok r))).
Proof.
  cbv zeta. destruct r as [py ve de en dk te].
  assert (T : forall a : string,
             String.eqb a "--test" = true <-> Some a = Some "--test"%string).
  { intro a. rewrite String.eqb_eq. split; congruence. }
  destruct py, ve, de, en, dk; destruct argv as [|a argv];
    cbn -[String.eqb];
    (split; [intuition (try discriminate; try congruence) |]);
    (split; [tauto |]);
    (split; [intuition (try discriminate; try congruence) |]);
    (split; [eexists; reflexivity |]);
    (split; [intuition (try discriminate; try congruence) |]);
    (split; [| reflexivity]);
    try (rewrite T); intuition (try discriminate; try congruence).
Qed.

(** Everything works but Docker. *)
Lemma setup_main_outcome_witness :
  exit_status (setup_main ["--test"%string]
                 (mkSetup true true true true false true)) = Some 1%nat.
Proof.
  destruct (setup_main_outcome ["--test"%string]
              (mkSetup true true true true false true))
    as (H & [E | E] & _).
  - apply H in E. destruct E as (_ & _ & _ & _ & E). discriminate E.
  - exact E.
Defined.

(** ** The cleanup task *)

Lemma filter_filter_and {A} (f g : A -> bool) (l : list A) :
  filter f (filter g l) = filter (fun x => g x && f x) l.
Proof.
  induction l as [|x l IH]; simpl; trivial.
  destruct (g x); simpl; [destruct (f x) |]; now rewrite IH.
Qed.

Lemma filter_split_perm {A} (a b : A -> bool) (l : list A) :
  Permutation (filter a l ++ filter b (filter (fun x => negb (a x)) l))
              (filter (fun x => a x || b x) l).
Proof.
  induction l as [|x l IH]; simpl; trivial.
  destruct (a x); simpl.
  - now constructor.
  - destruct (b x); simpl; trivial.
    etransitivity; [symmetry; apply Permutation_middle |].
    now constructor.
Qed.

Lemma cleanup_fold (unlink_ok : string -> bool)
  (ps : list (string -> bool)) :
  forall dir cleaned,
    exists gone,
      fold_left (fun st p => cleanup_pass unlink_ok p st) ps (dir, cleaned)
      = (filter (fun n => negb (existsb (fun p => p n) ps && unlink_ok n)) dir,
         cleaned ++ gone) /\
      Permutation gone
        (filter (fun n => existsb (fun p => p n) ps && unlink_ok n) dir).
Proof.
  induction ps as [|p ps IH]; intros dir cleaned.
  - exists []. simpl. rewrite app_nil_r. split.
    + f_equal. symmetry. apply filter_all. now apply Forall_forall.
    + rewrite filter_none; trivial.
  - cbn [fold_left cleanup_pass].
    destruct (IH (filter (fun n => negb (p n && unlink_ok n)) dir)
                 (cleaned ++ filter (fun n => p n && unlink_ok n) dir))
      as (gone & E & P).
    exists (filter (fun n => p n && unlink_ok n) dir ++ gone). split.
    + rewrite E, <- app_assoc. f_equal.
      rewrite filter_filter_and. apply filter_ext. intro n. simpl.
      destruct (p n), (existsb (fun q => q n) ps), (unlink_ok n); reflexivity.
    + etransitivity; [apply Permutation_app_head; exact P |].
      etransitivity; [apply filter_split_perm |].
      erewrite filter_ext; [reflexivity |]. intro n. simpl.
      destruct (p n), (existsb (fun q => q n) ps), (unlink_ok n); reflexivity.
Qed.

(** X29. The cleanup removes exactly the files that match one of the
    three patterns and can be unlinked, and counts each of them once,
    also a file matching two patterns: what is left and what is recorded
    together make up the directory. *)
Theorem cleanup_temp_files_result
  (unlink_ok : string -> bool) (dir : list string) :
  let temp n := existsb (fun p => p n) temp_patterns && unlink_ok n in
  fst (cleanup_temp_files unlink_ok dir) = filter (fun n => negb (temp n)) dir /\
  Permutation (snd (cleanup_temp_files unlink_ok dir)) (filter temp dir) /\
  (length (fst (cleanup_temp_files unlink_ok dir))
   + length (snd (cleanup_temp_files unlink_ok dir)) = length dir)%nat /\
  (NoDup dir -> NoDup (snd (cleanup_temp_files unlink_ok dir))).
Proof.
  cbv zeta. unfold cleanup_temp_files.
  destruct (cleanup_fold unlink_ok temp_patterns dir []) as (gone & E & P).
  rewrite E. cbn [fst snd app].
  split; [reflexivity |]. split; [exact P |]. split.
  - rewrite (Permutation_length P), Nat.add_comm. apply filter_length.
  - intro N. apply (Permutation_NoDup (Permutation_sym P)).
    now apply NoDup_filter.
Qed.

(** A file matching two patterns is recorded once; a file that cannot be
    unlinked stays. *)
Lemma cleanup_temp_files_result_witness :
  cleanup_temp_files (fun n => negb (String.eqb n "run.log"))
    ["a_temp.tmp"; "songs_transformed.csv"; "run.log"; "x.log"]%string
  = (["songs_transformed.csv"; "run.log"]%string,
     ["a_temp.tmp"; "x.log"]%string) /\
  NoDup (snd (cleanup_temp_files (fun n => negb (String.eqb n "run.log"))
                ["a_temp.tmp"; "songs_transformed.csv"; "run.log";
                 "x.log"]%string)).
Proof.
  split; [reflexivity |].
  apply (cleanup_temp_files_result (fun n => negb (String.eqb n "run.log"))).
  repeat constructor; simpl; intuition discriminate.
Defined.

(** ** The years a summary covers *)

Lemma fold_min_spec (xs : list Z) :
  forall x,
    let m := fold_left Z.min xs x in
    (m <= x)%Z /\ (forall y, In y xs -> (m <= y)%Z) /\ In m (x :: xs).
Proof.
  induction xs as [|a xs IH]; intro x; cbn [fold_left].
  - cbv zeta. repeat split; [lia | intros y [] | now left].
  - destruct (IH (Z.min x a)) as (L & A & I). cbv zeta in *.
    repeat split.
    + lia.
    + intros y [<- | Hy]; [lia | now apply A].
    + destruct I as [E | I]; [| now right; right].
      rewrite <- E. destruct (Z.min_spec x a) as [[_ ->] | [_ ->]];
        [now left | now right; left].
Qed.

Lemma fold_max_spec (xs : list Z) :
  forall x,
    let m := fold_left Z.max xs x in
    (x <= m)%Z /\ (forall y, In y xs -> (y <= m)%Z) /\ In m (x :: xs).
Proof.
  induction xs as [|a xs IH]; intro x; cbn [fold_left].
  - cbv zeta. repeat split; [lia | intros y [] | now left].
  - destruct (IH (Z.max x a)) as (L & A & I). cbv zeta in *.
    repeat split.
    + lia.
    + intros y [<- | Hy]; [lia | now apply A].
    + destruct I as [E | I]; [| now right; right].
      rewrite <- E. destruct (Z.max_spec x a) as [[_ ->] | [_ ->]];
        [now right; left | now left].
Qed.

(** X30. The years a summary covers are the least and the greatest year
    of the table: both are years of rows, and every row's year lies
    between them. *)
Theorem years_covered_span (data : list Categorized) (ins : Insights.t) :
  generate_insights data = inr ins ->
  exists lo hi,
    Insights.years_covered ins = (Some lo, Some hi) /\
    (exists r, In r data /\ year (song r) = lo) /\
    (exists r, In r data /\ year (song r) = hi) /\
    (forall r, In r data -> (lo <= year (song r) <= hi)%Z).
Proof.
  intro H.
  apply generate_insights_inv in H
    as (i1 & i2 & i3 & i4 & t1 & t2 & t3 & t4
        & E1 & _ & _ & _ & _ & _ & _ & _ & ->).
  destruct data as [|r0 data]; [discriminate E1 |].
  cbn [Insights.years_covered map Zmin_list Zmax_list].
  set (ys := map (fun r => year (song r)) data).
  destruct (fold_min_spec ys (year (song r0))) as (L1 & A1 & I1).
  destruct (fold_max_spec ys (year (song r0))) as (L2 & A2 & I2).
  cbv zeta in *.
  assert (Hin : forall y, In y (year (song r0) :: ys) ->
                          exists r, In r (r0 :: data) /\ year (song r) = y).
  { intros y [<- | Hy].
    - exists r0. split; [now left | reflexivity].
    - apply in_map_iff in Hy as (r & <- & Hr). exists r. split; [now right |].
      reflexivity. }
  eexists _, _. split; [reflexivity |].
  split; [now apply Hin |]. split; [now apply Hin |].
  intros r [<- | Hr]; [lia |].
  assert (In (year (song r)) ys)
    by (apply in_map_iff; exists r; split; trivial).
  split; [now apply A1 | now apply A2].
Qed.

Lemma years_covered_span_witness :
  exists ins,
    generate_insights three_songs = inr ins /\
    Insights.years_covered ins = (Some 2020%Z, Some 2021%Z).
Proof.
  let v := eval vm_compute in (generate_insights three_songs) in
  match v with
  | inr ?ins =>
      pose proof (years_covered_span three_songs ins eq_refl) as H;
      exists ins
  end.
  split; reflexivity.
Defined.
